(** * WebInspector bridge: registry, arbitration and connection lifecycle

    A shallow embedding of the connection / registry / routing code of
    - [src/bridge/server.js]     (the relay: subscriber registry, target
                                  arbitration, dispatch, port selection),
    - [src/bridge/mcp-server.mjs] (the listener endpoint),
    - the userscript [Transport] object (the producer endpoint),
    followed by the properties established about them.

    Conventions.  JavaScript numbers that hold timestamps, delays and ports
    are integers ([Z]).  [Date.now()] and the results of OS probes are
    inputs of the handler that reads them.  Writes to stdout, socket sends
    and timers are recorded in the state, in the order the code performs
    them. *)

From Stdlib Require Import List String ZArith Bool Lia Arith.
Import ListNotations.

Set Implicit Arguments.

(** ** JavaScript values used by the code *)

(** A transport handle (a [WebSocket] object), identified by a number. *)
Definition WsId := nat.

(** Values a [clientId] can take: the closure variable starts as [null], a
    register payload without the field yields [undefined], and listeners
    send strings. *)
Inductive JsId : Type :=
| IdNull
| IdUndefined
| IdStr (s : string).

(** Key equality of a JS [Map] (SameValueZero) on these values. *)
Definition id_eqb (a b : JsId) : bool :=
  match a, b with
  | IdNull, IdNull => true
  | IdUndefined, IdUndefined => true
  | IdStr s, IdStr t => String.eqb s t
  | _, _ => false
  end.

(** JS truthiness of a string: only the empty string is falsy. *)
Definition str_truthy (s : string) : bool :=
  match s with
  | EmptyString => false
  | String _ _ => true
  end.

(** JS truthiness of an id: [null], [undefined] and [''] are falsy. *)
Definition id_truthy (i : JsId) : bool :=
  match i with
  | IdStr s => str_truthy s
  | _ => false
  end.

(** [a || b] on an optional string field of a parsed payload. *)
Definition str_or (a : option string) (b : string) : string :=
  match a with
  | Some s => if str_truthy s then s else b
  | None => b
  end.

(** [a || b] on an optional numeric field. *)
Definition num_or (a : option Z) (b : Z) : Z :=
  match a with
  | Some n => if Z.eqb n 0 then b else n
  | None => b
  end.

(** [s.includes(sub)]: [sub] occurs in [s] as a contiguous substring. *)
Fixpoint includes (s sub : string) : bool :=
  if String.prefix sub s then true
  else match s with
       | EmptyString => false
       | String _ s' => includes s' sub
       end.

(** ** The JS [Map]: an insertion-ordered table *)

Module JsMap.
Section Ops.
Variables K V : Type.
Variable eqb : K -> K -> bool.

(** [m.set(k, v)]: an existing key keeps its position and gets the new
    value, a new key is appended. *)
Fixpoint set (k : K) (v : V) (m : list (K * V)) : list (K * V) :=
  match m with
  | [] => [(k, v)]
  | (k', v') :: m' =>
      if eqb k' k then (k, v) :: m' else (k', v') :: set k v m'
  end.

(** [m.get(k)] *)
Fixpoint get (k : K) (m : list (K * V)) : option V :=
  match m with
  | [] => None
  | (k', v') :: m' => if eqb k' k then Some v' else get k m'
  end.

(** [m.has(k)] *)
Definition has (k : K) (m : list (K * V)) : bool :=
  match get k m with
  | Some _ => true
  | None => false
  end.

(** [m.delete(k)] *)
Fixpoint delete (k : K) (m : list (K * V)) : list (K * V) :=
  match m with
  | [] => []
  | (k', v') :: m' =>
      if eqb k' k then m' else (k', v') :: delete k m'
  end.

(** [m.size] *)
Definition size (m : list (K * V)) : nat := List.length m.

(** [Array.from(m.values())], in iteration (insertion) order. *)
Definition values (m : list (K * V)) : list V := map snd m.

(** [Array.from(m.keys())] *)
Definition keys (m : list (K * V)) : list K := map fst m.

(** Number of entries stored under [k]. *)
Definition count (k : K) (m : list (K * V)) : nat :=
  List.length (filter (fun e => eqb (fst e) k) m).

End Ops.
End JsMap.

(** ** The relay, [src/bridge/server.js] *)

Module Bridge.

(** The value stored per subscriber:
    [{ ws, projectPath, projectName, tty, pid, lastHeartbeat }]. *)
Record Client : Type := mkClient {
  ws : WsId;
  projectPath : string;
  projectName : string;
  tty : string;
  pid : Z;
  lastHeartbeat : Z
}.

(** A register payload as parsed from JSON; absent fields are [None]. *)
Record RegisterPayload : Type := mkRegister {
  reg_clientId : JsId;
  reg_projectPath : option string;
  reg_projectName : option string;
  reg_tty : option string;
  reg_pid : option Z
}.

(** What [JSON.parse] returned, as far as the subscriber handler looks at
    it.  [JNull] is the JSON text [null], on which [payload.type] throws. *)
Inductive Json : Type :=
| JRegister (p : RegisterPayload)
| JHeartbeat (clientId : JsId)
| JOther
| JNull.

(** A frame received on a subscriber socket. *)
Inductive Frame : Type :=
| Unparsable
| Parsed (j : Json).

(** Lines the relay writes and frames it sends, in order.
    - [RegisteredLine]   : "[Bridge] CLI registered: name (tty)"
    - [DisconnectedLine] : "[Bridge] CLI disconnected: name"
    - [ParseFailedLine]  : stderr, "message parse failed"
    - [RouterDirect]     : "[Router] -> name"
    - [RouterFocus]      : "[Router] [focus] name"
    - [RouterFocusTty]   : "[Router] [focus] name (tty)"
    - [RouterHeartbeat]  : "[Router] [heartbeat] name"
    - [RouterConflict]   : "[Router] [conflict] n active clients (names)"
    - [RouterTimeout]    : "[Router] [timeout] no active client (registered: names)"
    - [McpLine]          : "[Bridge] MCP -> name" *)
Inductive Line : Type :=
| RegisteredLine (name tty : option string)
| DisconnectedLine (name : string)
| ParseFailedLine
| RouterDirect (name : string)
| RouterFocus (name : string)
| RouterFocusTty (name tty : string)
| RouterHeartbeat (name : string)
| RouterConflict (n : nat) (names : list string)
| RouterTimeout (names : list string)
| McpLine (name : string).

(** The module-level [subscribers] map, the [clientId] variable captured by
    the handlers of each subscriber connection, and what was written. *)
Record Relay : Type := mkRelay {
  subscribers : list (JsId * Client);
  closures : list (WsId * JsId);
  written : list Line
}.

Definition initial : Relay := mkRelay [] [] [].

(** The [clientId] variable of the connection [w] ([null] until assigned). *)
Definition local_clientId (w : WsId) (st : Relay) : JsId :=
  match JsMap.get Nat.eqb w (closures st) with
  | Some i => i
  | None => IdNull
  end.

Definition write (l : Line) (st : Relay) : Relay :=
  mkRelay (subscribers st) (closures st) (written st ++ [l]).

(** [handleSubscriberConnection(ws)]: [let clientId = null] and the handlers
    below are installed. *)
Definition handleSubscriberConnection (w : WsId) (st : Relay) : Relay :=
  mkRelay (subscribers st) (JsMap.set Nat.eqb w IdNull (closures st)) (written st).

(** The object literal stored by a register message received on [w]. *)
Definition record_of (w : WsId) (p : RegisterPayload) (now : Z) : Client :=
  mkClient w
    (str_or (reg_projectPath p) "")
    (str_or (reg_projectName p) "Unknown")
    (str_or (reg_tty p) "unknown")
    (num_or (reg_pid p) 0)
    now.

(** The [payload.type === 'register'] branch of the message handler. *)
Definition on_register (w : WsId) (p : RegisterPayload) (now : Z) (st : Relay) : Relay :=
  write (RegisteredLine (reg_projectName p) (reg_tty p))
    (mkRelay (JsMap.set id_eqb (reg_clientId p) (record_of w p now) (subscribers st))
             (JsMap.set Nat.eqb w (reg_clientId p) (closures st))
             (written st)).

(** The [payload.type === 'heartbeat'] branch. *)
Definition on_heartbeat (id : JsId) (now : Z) (st : Relay) : Relay :=
  match JsMap.get id_eqb id (subscribers st) with
  | Some c =>
      let c' := mkClient (ws c) (projectPath c) (projectName c) (tty c) (pid c) now in
      mkRelay (JsMap.set id_eqb id c' (subscribers st)) (closures st) (written st)
  | None => st
  end.

(** [ws.on('message', ...)] of a subscriber.  [None]: the handler threw
    (reading [.type] of [null]). *)
Definition on_message (w : WsId) (f : Frame) (now : Z) (st : Relay) : option Relay :=
  match f with
  | Unparsable => Some (write ParseFailedLine st)
  | Parsed JNull => None
  | Parsed (JRegister p) => Some (on_register w p now st)
  | Parsed (JHeartbeat id) => Some (on_heartbeat id now st)
  | Parsed JOther => Some st
  end.

(** [ws.on('close', ...)] of a subscriber. *)
Definition on_close (w : WsId) (st : Relay) : Relay :=
  let clientId := local_clientId w st in
  if id_truthy clientId && JsMap.has id_eqb clientId (subscribers st) then
    match JsMap.get id_eqb clientId (subscribers st) with
    | Some client =>
        let st' := write (DisconnectedLine (projectName client)) st in
        mkRelay (JsMap.delete id_eqb clientId (subscribers st'))
                (closures st') (written st')
    | None => st
    end
  else st.

(** Registry operations seen from outside: a register frame arriving on a
    transport, and a transport closing. *)
Inductive Op : Type :=
| Register (w : WsId) (p : RegisterPayload) (now : Z)
| Remove (w : WsId).

Definition apply_op (st : Relay) (o : Op) : Relay :=
  match o with
  | Register w p now => on_register w p now st
  | Remove w => on_close w st
  end.

Definition run_ops (ops : list Op) (st : Relay) : Relay :=
  fold_left apply_op ops st.

(** Everything a subscriber connection can make the relay do. *)
Inductive Event : Type :=
| Connection (w : WsId)
| Message (w : WsId) (f : Frame) (now : Z)
| Close (w : WsId).

Definition step (st : Relay) (e : Event) : option Relay :=
  match e with
  | Connection w => Some (handleSubscriberConnection w st)
  | Message w f now => on_message w f now st
  | Close w => Some (on_close w st)
  end.

Fixpoint run (evs : list Event) (st : Relay) : option Relay :=
  match evs with
  | [] => Some st
  | e :: evs' =>
      match step st e with
      | Some st' => run evs' st'
      | None => None
      end
  end.

(** The event is a parsed register frame on connection [w]. *)
Definition is_register_on (w : WsId) (e : Event) : bool :=
  match e with
  | Message w' (Parsed (JRegister _)) _ => Nat.eqb w' w
  | _ => false
  end.

(** *** Target arbitration *)

(** The filter of strategy 2: [now - c.lastHeartbeat < 3000]. *)
Definition recent (now : Z) (c : Client) : bool :=
  (now - lastHeartbeat c <? 3000)%Z.

(** The [for (const client of subscribers.values())] loop of strategy 1:
    the first client, in iteration order, whose non-empty [projectPath] or
    non-empty [tty] occurs in the window title, with the line written. *)
Fixpoint focus_scan (activeWindow : string) (cs : list Client) : option (Client * Line) :=
  match cs with
  | [] => None
  | client :: rest =>
      if str_truthy (projectPath client) && includes activeWindow (projectPath client)
      then Some (client, RouterFocus (projectName client))
      else if str_truthy (tty client) && includes activeWindow (tty client)
      then Some (client, RouterFocusTty (projectName client) (tty client))
      else focus_scan activeWindow rest
  end.

(** Strategy 1 including its guard [if (activeWindow)]. *)
Definition focus_match (activeWindow : option string) (cs : list Client) : option (Client * Line) :=
  match activeWindow with
  | Some title => if str_truthy title then focus_scan title cs else None
  | None => None
  end.

(** Strategy 2 and the refusals that follow it. *)
Definition heartbeat_match (now : Z) (cs : list Client) : option Client * list Line :=
  let recentClients := filter (recent now) cs in
  if Nat.eqb (List.length recentClients) 1 then
    match recentClients with
    | c :: _ => (Some c, [RouterHeartbeat (projectName c)])
    | [] => (None, [])
    end
  else if Nat.ltb 1 (List.length recentClients) then
    (None, [RouterConflict (List.length recentClients) (map projectName recentClients)])
  else
    (None, [RouterTimeout (map projectName cs)]).

(** A run of [selectTargetClient]: either it returns at once, or it calls
    [detectActiveTTY()] and continues with the window title ([None] for
    [null]) and with the [Date.now()] it reads afterwards. *)
Inductive Routing : Type :=
| Return (target : option Client) (lines : list Line)
| DetectActiveTTY (k : option string -> Z -> option Client * list Line).

(** [selectTargetClient()] on the current [subscribers]. *)
Definition selectTargetClient (subs : list (JsId * Client)) : Routing :=
  if Nat.eqb (JsMap.size subs) 0 then Return None []
  else if Nat.eqb (JsMap.size subs) 1 then
    match JsMap.values subs with
    | client :: _ => Return (Some client) [RouterDirect (projectName client)]
    | [] => Return None []
    end
  else
    DetectActiveTTY (fun activeWindow now =>
      match focus_match activeWindow (JsMap.values subs) with
      | Some (client, line) => (Some client, [line])
      | None => heartbeat_match now (JsMap.values subs)
      end).

(** What the relay reads from outside during one dispatch. *)
Record World : Type := mkWorld {
  activeWindow : option string;
  clock : Z;
  readyState : WsId -> Z
}.

(** The outcome of a run: target, lines written, and whether the focus
    probe was called. *)
Record Decision : Type := mkDecision {
  target : option Client;
  lines : list Line;
  probed : bool
}.

Definition decide (r : Routing) (world : World) : Decision :=
  match r with
  | Return t ls => mkDecision t ls false
  | DetectActiveTTY k =>
      let '(t, ls) := k (activeWindow world) (clock world) in
      mkDecision t ls true
  end.

(** *** Dispatch of a producer frame *)

(** A frame from the browser: not JSON, a [ping], or an event whose [data]
    is forwarded as it is. *)
Inductive BrowserFrame : Type :=
| BUnparsable
| BPing
| BEvent (data : string).

(** What a dispatch does, in order: the auto-paste of the formatted message
    (the main channel), lines written, and [{type:'element', data}] sent on
    a socket. *)
Inductive Output : Type :=
| Pasted (message : string)
| Wrote (l : Line)
| Sent (w : WsId) (data : string).

(** [ws.on('message', ...)] of [handleBrowserConnection].

    [formatElementForPaste] gives, for the [data] of an event, the message
    the function of that name returns, or [None] when it throws: it reads
    [.length] of [textContent] and [outerHTML] and calls [.slice] on them,
    and converts fields to strings, which fails on some JSON values.  The
    handler calls it first and outside any [try], so a throw ends the
    handler before the arbitrator is reached: the result is [None] then.
    [autoPasteToGhostty] catches its own errors. *)
Definition on_browser_message (formatElementForPaste : string -> option string)
  (st : Relay) (world : World) (f : BrowserFrame) : option (list Output) :=
  match f with
  | BUnparsable => Some [Wrote ParseFailedLine]
  | BPing => Some []
  | BEvent data =>
      match formatElementForPaste data with
      | None => None
      | Some pasteMessage =>
          let d := decide (selectTargetClient (subscribers st)) world in
          Some (Pasted pasteMessage :: map Wrote (lines d) ++
                match target d with
                | Some t =>
                    if Z.eqb (readyState world (ws t)) 1
                    then [Sent (ws t) data; Wrote (McpLine (projectName t))]
                    else []
                | None => []
                end)
      end
  end.

(** *** Port selection *)

(** An error object, as far as the code looks at it: its [code]. *)
Record Err : Type := mkErr { code : option string }.

Definition EADDRINUSE : Err := mkErr (Some "EADDRINUSE"%string).

(** [error && error.code === 'EADDRINUSE'] *)
Definition is_addr_in_use (e : Err) : bool :=
  match code e with
  | Some c => String.eqb c "EADDRINUSE"
  | None => false
  end.

(** How the promise of [tryPort(port)] settles. *)
Inductive TryPort : Type :=
| Listening
| Failing (e : Err).

(** How the promise of [createServer] settles. *)
Inductive Settled : Type :=
| Resolved (port : Z)
| Rejected (e : Err).

(** The [for (let attempt = 0; attempt < 3; attempt += 1)] loop, entered
    with [remaining = 3 - attempt]; returns the ports tried so far as well. *)
Fixpoint createServer_loop (tryPort : Z -> TryPort) (port : Z) (remaining : nat)
  (attempt : Z) (lastError : option Err) (tried : list Z) : Settled * list Z :=
  match remaining with
  | O =>
      (Rejected (match lastError with Some e => e | None => mkErr None end), tried)
  | S remaining' =>
      let currentPort := (port + attempt)%Z in
      match tryPort currentPort with
      | Listening => (Resolved currentPort, tried ++ [currentPort])
      | Failing e =>
          if is_addr_in_use e
          then createServer_loop tryPort port remaining' (attempt + 1)%Z (Some e)
                 (tried ++ [currentPort])
          else (Rejected e, tried ++ [currentPort])
      end
  end.

(** [createServer(port)] *)
Definition createServer (tryPort : Z -> TryPort) (port : Z) : Settled * list Z :=
  createServer_loop tryPort port 3 0%Z None [].

(** What becomes of the process started by [main()]. *)
Inductive Process : Type :=
| Serving (browserPort : Z)
| Exited (status : Z).

(** [main().catch(... process.exit(1))], from the parsed [options.port] on.
    [subscriberServer] is [false] when constructing the second server threw. *)
Definition main (tryPort : Z -> TryPort) (subscriberServer : bool) (options_port : Z) : Process :=
  match fst (createServer tryPort options_port) with
  | Resolved browserPort =>
      if subscriberServer then Serving browserPort else Exited 1
  | Rejected _ => Exited 1
  end.

End Bridge.

(** ** Sockets and timers of the host (browser or Node) *)

Module Host.

(** [WebSocket.readyState] *)
Inductive ReadyState : Type :=
| CONNECTING
| OPEN
| CLOSING
| CLOSED.

(** The sockets constructed so far (a handle is the index of its socket),
    the delay of every [setTimeout] call in call order (a timer handle is
    the index of its call), and the handles that are armed. *)
Record Env : Type := mkEnv {
  sockets : list ReadyState;
  timeouts : list Z;
  pending : list nat
}.

Definition empty : Env := mkEnv [] [] [].

(** [new WebSocket(url)] that does not throw: the new handle and the host. *)
Definition new_WebSocket (e : Env) : WsId * Env :=
  (List.length (sockets e),
   mkEnv (sockets e ++ [CONNECTING]) (timeouts e) (pending e)).

Fixpoint update (l : list ReadyState) (i : nat) (r : ReadyState) : list ReadyState :=
  match l, i with
  | [], _ => []
  | _ :: l', O => r :: l'
  | x :: l', S i' => x :: update l' i' r
  end.

(** The host moves socket [w] to state [r]. *)
Definition set_readyState (w : WsId) (r : ReadyState) (e : Env) : Env :=
  mkEnv (update (sockets e) w r) (timeouts e) (pending e).

Definition readyState (w : WsId) (e : Env) : ReadyState :=
  nth w (sockets e) CLOSED.

(** The socket exists, so the handlers installed at its creation can run. *)
Definition exists_socket (w : WsId) (e : Env) : bool :=
  Nat.ltb w (List.length (sockets e)).

(** [ws.close()]: starts the closing handshake of a socket not yet closed. *)
Definition close (w : WsId) (e : Env) : Env :=
  match readyState w e with
  | CONNECTING | OPEN => set_readyState w CLOSING e
  | _ => e
  end.

(** [setTimeout(cb, delay)]: the handle and the host. *)
Definition setTimeout (delay : Z) (e : Env) : nat * Env :=
  (List.length (timeouts e),
   mkEnv (sockets e) (timeouts e ++ [delay]) (List.length (timeouts e) :: pending e)).

(** [clearTimeout(handle)] *)
Definition clearTimeout (h : nat) (e : Env) : Env :=
  mkEnv (sockets e) (timeouts e) (filter (fun h' => negb (Nat.eqb h' h)) (pending e)).

(** Timer [h] is armed. *)
Definition armed (h : nat) (e : Env) : bool :=
  existsb (Nat.eqb h) (pending e).

End Host.

(** ** The producer endpoint: the userscript's [Transport] *)

Module Userscript.

(** [Config.MAX_RETRIES] and [Config.RETRY_INTERVAL] *)
Definition MAX_RETRIES : nat := 5.
Definition RETRY_INTERVAL : Z := 3000.

(** [State.connectionState] *)
Inductive Phase : Type :=
| DISCONNECTED
| CONNECTING
| CONNECTED.

(** The fields of [Transport], [State.connectionState], and the host. *)
Record Transport : Type := mkTransport {
  ws : option WsId;
  reconnectAttempts : nat;
  reconnectTimer : option nat;
  isManualClose : bool;
  isReconnecting : bool;
  connectionState : Phase;
  host : Host.Env
}.

Definition initial : Transport :=
  mkTransport None 0 None false false DISCONNECTED Host.empty.

Definition with_host (h : Host.Env) (t : Transport) : Transport :=
  mkTransport (ws t) (reconnectAttempts t) (reconnectTimer t) (isManualClose t)
    (isReconnecting t) (connectionState t) h.

(** [setState(nextState)] *)
Definition setState (nextState : Phase) (t : Transport) : Transport :=
  mkTransport (ws t) (reconnectAttempts t) (reconnectTimer t) (isManualClose t)
    (isReconnecting t) nextState (host t).

(** [resetReconnect()] *)
Definition resetReconnect (t : Transport) : Transport :=
  mkTransport (ws t) 0
    None
    (isManualClose t) false (connectionState t)
    (match reconnectTimer t with
     | Some h => Host.clearTimeout h (host t)
     | None => host t
     end).

(** [scheduleReconnect()] *)
Definition scheduleReconnect (t : Transport) : Transport :=
  if Nat.leb MAX_RETRIES (reconnectAttempts t) then t
  else
    let h0 := match reconnectTimer t with
              | Some h => Host.clearTimeout h (host t)
              | None => host t
              end in
    let delay := (RETRY_INTERVAL * 2 ^ Z.of_nat (reconnectAttempts t))%Z in
    let '(h, h1) := Host.setTimeout delay h0 in
    mkTransport (ws t) (S (reconnectAttempts t)) (Some h) (isManualClose t)
      (isReconnecting t) (connectionState t) h1.

(** [connect()].  [constructed] tells whether [new WebSocket(Config.WS_URL)]
    returned ([true]) or threw ([false]). *)
Definition connect (constructed : bool) (t : Transport) : Transport :=
  match connectionState t with
  | DISCONNECTED =>
      let t1 := setState CONNECTING
                  (mkTransport (ws t) (reconnectAttempts t) (reconnectTimer t) false
                     (isReconnecting t) (connectionState t) (host t)) in
      if constructed then
        let '(w, h) := Host.new_WebSocket (host t1) in
        mkTransport (Some w) (reconnectAttempts t1) (reconnectTimer t1)
          (isManualClose t1) (isReconnecting t1) (connectionState t1) h
      else
        scheduleReconnect (setState DISCONNECTED t1)
  | _ => t
  end.

(** The ['open'] listener. *)
Definition on_open (t : Transport) : Transport :=
  resetReconnect (setState CONNECTED t).

(** The ['close'] listener. *)
Definition on_close (t : Transport) : Transport :=
  let t1 := setState DISCONNECTED
              (mkTransport None (reconnectAttempts t) (reconnectTimer t)
                 (isManualClose t) (isReconnecting t) (connectionState t) (host t)) in
  if negb (isManualClose t1) && negb (isReconnecting t1) then
    scheduleReconnect
      (mkTransport (ws t1) (reconnectAttempts t1) (reconnectTimer t1)
         (isManualClose t1) true (connectionState t1) (host t1))
  else t1.

(** The ['error'] listener. *)
Definition on_error (t : Transport) : Transport :=
  match ws t with
  | Some w => with_host (Host.close w (host t)) t
  | None => t
  end.

(** [disconnect()] *)
Definition disconnect (t : Transport) : Transport :=
  let h0 := match reconnectTimer t with
            | Some h => Host.clearTimeout h (host t)
            | None => host t
            end in
  let h1 := match ws t with
            | Some w => Host.close w h0
            | None => h0
            end in
  setState DISCONNECTED (mkTransport None (reconnectAttempts t) None true
                           (isReconnecting t) (connectionState t) h1).

(** What the host can deliver: socket events on a handle, and the firing of
    an armed timer (whose callback calls [connect()]). *)
Inductive HostEvent : Type :=
| Open (w : WsId)
| Closed (w : WsId)
| Error (w : WsId)
| Message (w : WsId)
| TimerFired (h : nat) (constructed : bool).

(** What the rest of the userscript calls. *)
Inductive Call : Type :=
| Connect (constructed : bool)
| Disconnect.

Inductive Event : Type :=
| FromHost (e : HostEvent)
| FromUser (c : Call).

(** Listeners run only on a socket [connect()] created; a timer fires only
    while armed, and is disarmed by firing. *)
Definition host_step (t : Transport) (e : HostEvent) : Transport :=
  match e with
  | Open w =>
      if Host.exists_socket w (host t)
      then on_open (with_host (Host.set_readyState w Host.OPEN (host t)) t)
      else t
  | Closed w =>
      if Host.exists_socket w (host t)
      then on_close (with_host (Host.set_readyState w Host.CLOSED (host t)) t)
      else t
  | Error w =>
      if Host.exists_socket w (host t) then on_error t else t
  | Message w => t
  | TimerFired h constructed =>
      if Host.armed h (host t)
      then connect constructed (with_host (Host.clearTimeout h (host t)) t)
      else t
  end.

Definition step (t : Transport) (e : Event) : Transport :=
  match e with
  | FromHost e' => host_step t e'
  | FromUser (Connect constructed) => connect constructed t
  | FromUser Disconnect => disconnect t
  end.

Definition run (evs : list Event) (t : Transport) : Transport :=
  fold_left step evs t.

(** The delays of the reconnects scheduled so far, oldest first. *)
Definition scheduled (t : Transport) : list Z := Host.timeouts (host t).

(** The reconnect timer fires, if one is armed, and makes the next attempt. *)
Definition fire_armed (constructed : bool) (t : Transport) : Transport :=
  match Host.pending (host t) with
  | h :: _ => host_step t (TimerFired h constructed)
  | [] => t
  end.

(** The attempt in flight fails: the host closes its socket. *)
Definition fail_by_close (t : Transport) : Transport :=
  match ws t with
  | Some w => host_step t (Closed w)
  | None => t
  end.

(** [connect()] followed by [n] failures in a row, each by a ['close']
    event on the socket of the attempt and followed by the next attempt,
    which the reconnect timer makes if it is armed. *)
Fixpoint closing_failures (n : nat) (t : Transport) : Transport :=
  match n with
  | O => t
  | S n' => closing_failures n' (fire_armed true (fail_by_close t))
  end.

Definition after_closing_failures (n : nat) : Transport :=
  closing_failures n (connect true initial).

(** [n] attempts in a row that fail by the constructor throwing: the first
    is made by [connect()], the following ones by the reconnect timer. *)
Fixpoint throwing_retries (n : nat) (t : Transport) : Transport :=
  match n with
  | O => t
  | S n' => throwing_retries n' (fire_armed false t)
  end.

Definition after_throwing_failures (n : nat) : Transport :=
  match n with
  | O => initial
  | S n' => throwing_retries n' (connect false initial)
  end.

(** Every armed timer is the one [reconnectTimer] refers to. *)
Definition one_timer (t : Transport) : Prop :=
  forall h, In h (Host.pending (host t)) -> reconnectTimer t = Some h.

(** After a manual close: the flag is set and no timer is armed. *)
Definition closed_manually (t : Transport) : Prop :=
  isManualClose t = true /\ Host.pending (host t) = [].

End Userscript.

(** ** The listener endpoint, [src/bridge/mcp-server.mjs] *)

Module McpServer.

Definition HEARTBEAT_INTERVAL : Z := 5000.
Definition INITIAL_RECONNECT_DELAY : Z := 1000.
Definition MAX_RECONNECT_DELAY : Z := 30000.

(** The messages [sendToWs] is called with. *)
Inductive Outgoing : Type :=
| RegisterMsg
| HeartbeatMsg (timestamp : Z).

(** The module-level variables, the host, the frames actually sent, the
    number of [setInterval] calls so far, and the status [process.exit]
    was called with. *)
Record Mcp : Type := mkMcp {
  wsConnection : option WsId;
  heartbeatTimer : option nat;
  reconnectDelay : Z;
  isShuttingDown : bool;
  host : Host.Env;
  sent : list (WsId * Outgoing);
  intervals : nat;
  exited : option Z
}.

Definition initial : Mcp :=
  mkMcp None None INITIAL_RECONNECT_DELAY false Host.empty [] 0 None.

Definition with_host (h : Host.Env) (m : Mcp) : Mcp :=
  mkMcp (wsConnection m) (heartbeatTimer m) (reconnectDelay m) (isShuttingDown m)
    h (sent m) (intervals m) (exited m).

(** [sendToWs(data)] *)
Definition sendToWs (data : Outgoing) (m : Mcp) : Mcp :=
  match wsConnection m with
  | Some w =>
      match Host.readyState w (host m) with
      | Host.OPEN =>
          mkMcp (wsConnection m) (heartbeatTimer m) (reconnectDelay m)
            (isShuttingDown m) (host m) (sent m ++ [(w, data)]) (intervals m) (exited m)
      | _ => m
      end
  | None => m
  end.

(** [register()] *)
Definition register (m : Mcp) : Mcp := sendToWs RegisterMsg m.

(** [stopHeartbeat()] *)
Definition stopHeartbeat (m : Mcp) : Mcp :=
  mkMcp (wsConnection m) None (reconnectDelay m) (isShuttingDown m)
    (host m) (sent m) (intervals m) (exited m).

(** [startHeartbeat()] *)
Definition startHeartbeat (m : Mcp) : Mcp :=
  let m1 := stopHeartbeat m in
  mkMcp (wsConnection m1) (Some (intervals m1)) (reconnectDelay m1) (isShuttingDown m1)
    (host m1) (sent m1) (S (intervals m1)) (exited m1).

(** [connectToBridge()] *)
Definition connectToBridge (m : Mcp) : Mcp :=
  if isShuttingDown m then m
  else
    let '(w, h) := Host.new_WebSocket (host m) in
    mkMcp (Some w) (heartbeatTimer m) (reconnectDelay m) (isShuttingDown m)
      h (sent m) (intervals m) (exited m).

(** [scheduleReconnect()]: arms a timer with the current delay. *)
Definition scheduleReconnect (m : Mcp) : Mcp :=
  if isShuttingDown m then m
  else with_host (snd (Host.setTimeout (reconnectDelay m) (host m))) m.

(** The callback [scheduleReconnect] hands to [setTimeout]. *)
Definition reconnect_callback (m : Mcp) : Mcp :=
  connectToBridge
    (mkMcp (wsConnection m) (heartbeatTimer m)
       (Z.min (reconnectDelay m * 2) MAX_RECONNECT_DELAY)
       (isShuttingDown m) (host m) (sent m) (intervals m) (exited m)).

(** The ['open'] listener. *)
Definition on_open (m : Mcp) : Mcp :=
  startHeartbeat
    (register
       (mkMcp (wsConnection m) (heartbeatTimer m) INITIAL_RECONNECT_DELAY
          (isShuttingDown m) (host m) (sent m) (intervals m) (exited m))).

(** The ['close'] listener. *)
Definition on_close (m : Mcp) : Mcp :=
  if negb (isShuttingDown m) then scheduleReconnect (stopHeartbeat m) else m.

(** [shutdown()] *)
Definition shutdown (m : Mcp) : Mcp :=
  if isShuttingDown m then m
  else
    let m1 := stopHeartbeat
                (mkMcp (wsConnection m) (heartbeatTimer m) (reconnectDelay m) true
                   (host m) (sent m) (intervals m) (exited m)) in
    match wsConnection m1 with
    | Some w =>
        mkMcp None (heartbeatTimer m1) (reconnectDelay m1) (isShuttingDown m1)
          (Host.close w (host m1)) (sent m1) (intervals m1) (Some 0%Z)
    | None =>
        mkMcp None (heartbeatTimer m1) (reconnectDelay m1) (isShuttingDown m1)
          (host m1) (sent m1) (intervals m1) (Some 0%Z)
    end.

(** Socket events, the firing of an armed reconnect timer, a tick of the
    heartbeat interval at time [now], and the two entry points. *)
Inductive Event : Type :=
| Open (w : WsId)
| Closed (w : WsId)
| Error (w : WsId)
| TimerFired (h : nat)
| Tick (h : nat) (now : Z)
| ConnectToBridge
| Shutdown.

Definition step (m : Mcp) (e : Event) : Mcp :=
  match e with
  | Open w =>
      if Host.exists_socket w (host m)
      then on_open (with_host (Host.set_readyState w Host.OPEN (host m)) m)
      else m
  | Closed w =>
      if Host.exists_socket w (host m)
      then on_close (with_host (Host.set_readyState w Host.CLOSED (host m)) m)
      else m
  | Error w => m
  | TimerFired h =>
      if Host.armed h (host m)
      then reconnect_callback (with_host (Host.clearTimeout h (host m)) m)
      else m
  | Tick h now =>
      match heartbeatTimer m with
      | Some h' => if Nat.eqb h h' then sendToWs (HeartbeatMsg now) m else m
      | None => m
      end
  | ConnectToBridge => connectToBridge m
  | Shutdown => shutdown m
  end.

Definition run (evs : list Event) (m : Mcp) : Mcp :=
  fold_left step evs m.

(** The delays of the reconnects scheduled so far, oldest first. *)
Definition scheduled (m : Mcp) : list Z := Host.timeouts (host m).

(** The phase of the endpoint, read off the socket it holds. *)
Inductive Phase : Type :=
| DISCONNECTED
| CONNECTING
| CONNECTED.

Definition phase (m : Mcp) : Phase :=
  match wsConnection m with
  | Some w =>
      match Host.readyState w (host m) with
      | Host.CONNECTING => CONNECTING
      | Host.OPEN => CONNECTED
      | _ => DISCONNECTED
      end
  | None => DISCONNECTED
  end.

(** The attempt in flight fails (['close'] on its socket), the reconnect
    timer fires and makes the next attempt. *)
Definition fail_and_retry (m : Mcp) : Mcp :=
  let m1 := match wsConnection m with
            | Some w => step m (Closed w)
            | None => m
            end in
  match Host.pending (host m1) with
  | h :: _ => step m1 (TimerFired h)
  | [] => m1
  end.

(** [n] failures in a row. *)
Fixpoint failures (n : nat) (m : Mcp) : Mcp :=
  match n with
  | O => m
  | S n' => failures n' (fail_and_retry m)
  end.

(** The attempt in flight succeeds: ['open'] on its socket. *)
Definition succeed (m : Mcp) : Mcp :=
  match wsConnection m with
  | Some w => step m (Open w)
  | None => m
  end.

(** An attempt is in flight on an existing socket, no timer is armed, and
    the delay variable holds [d]. *)
Definition attempting (d : Z) (m : Mcp) : Prop :=
  isShuttingDown m = false /\
  (exists w, wsConnection m = Some w /\ Host.exists_socket w (host m) = true) /\
  Host.pending (host m) = [] /\
  reconnectDelay m = d.

End McpServer.

(** ** Command line of the relay, [parseArgs] in [src/bridge/server.js] *)

Module Startup.

(** What [Number.parseInt(s, 10)] can return: [NaN], an infinity, or a
    finite integer. *)
Inductive JsNumber : Type :=
| NaN
| Infinity (negative : bool)
| Finite (z : Z).

Definition DEFAULT_PORT : Z := 51765.

(** [Number.isFinite(value) && value > 0] *)
Definition acceptable (value : JsNumber) : bool :=
  match value with
  | Finite z => (0 <? z)%Z
  | _ => false
  end.

(** The assignment guarded by that test. *)
Definition assign (value : JsNumber) (port : Z) : Z :=
  match value with
  | Finite z => if acceptable value then z else port
  | _ => port
  end.

(** [arg.slice(n)] *)
Fixpoint slice_from (n : nat) (s : string) : string :=
  match n, s with
  | O, _ => s
  | S n', String _ s' => slice_from n' s'
  | S _, EmptyString => EmptyString
  end.

Section WithParseInt.

(** [Number.parseInt(s, 10)], a function of the host. *)
Variable parseInt : string -> JsNumber.

(** The [for] loop of [parseArgs], on the arguments from index [i] on, with
    [result.port] so far.  A ["--port"] that has a successor consumes it. *)
Fixpoint parseArgs_from (args : list string) (port : Z) : Z :=
  match args with
  | [] => port
  | arg :: rest =>
      if String.eqb arg "--port" then
        match rest with
        | value :: rest' => parseArgs_from rest' (assign (parseInt value) port)
        | [] => port
        end
      else if String.prefix "--port=" arg then
        parseArgs_from rest (assign (parseInt (slice_from 7 arg)) port)
      else parseArgs_from rest port
  end.

(** [parseArgs(argv).port] *)
Definition parseArgs (argv : list string) : Z :=
  parseArgs_from (skipn 2 argv) DEFAULT_PORT.

(** The port is positive, and the default or a value [parseInt] returned. *)
Definition port_origin (port : Z) : Prop :=
  (0 < port)%Z /\ (port = DEFAULT_PORT \/ exists s, parseInt s = Finite port).

End WithParseInt.

(** An argument that is not an option of [parseArgs]. *)
Definition plain (arg : string) : bool :=
  negb (String.eqb arg "--port") && negb (String.prefix "--port=" arg).

End Startup.

(** ** Table cells, [escapeTableCell] in [server.js] and [escapeCell] in
    [mcp-server.mjs] *)

Module Markdown.

Definition LF : Ascii.ascii := Ascii.ascii_of_nat 10.
Definition CR : Ascii.ascii := Ascii.ascii_of_nat 13.
Definition PIPE : Ascii.ascii := Ascii.ascii_of_nat 124.
Definition BACKSLASH : Ascii.ascii := Ascii.ascii_of_nat 92.
Definition SPACE : Ascii.ascii := Ascii.ascii_of_nat 32.

(** [s.replace(/\|/g, '\\|')] *)
Fixpoint escape_pipes (s : string) : string :=
  match s with
  | EmptyString => EmptyString
  | String c s' =>
      if Ascii.eqb c PIPE
      then String BACKSLASH (String PIPE (escape_pipes s'))
      else String c (escape_pipes s')
  end.

(** [s.replace(/\r?\n/g, '<br>')] *)
Fixpoint break_lines (s : string) : string :=
  match s with
  | EmptyString => EmptyString
  | String c s' =>
      if Ascii.eqb c LF then String.append "<br>" (break_lines s')
      else if Ascii.eqb c CR then
        match s' with
        | String c' s'' =>
            if Ascii.eqb c' LF then String.append "<br>" (break_lines s'')
            else String c (break_lines s')
        | EmptyString => String c EmptyString
        end
      else String c (break_lines s')
  end.

(** [escapeTableCell(text)] of [server.js]; [None] is [null] or
    [undefined]. *)
Definition escapeTableCell (text : option string) : string :=
  match text with
  | None => EmptyString
  | Some s => break_lines (escape_pipes s)
  end.

(** [s.replace(/\n/g, ' ')] *)
Fixpoint spaces_for_newlines (s : string) : string :=
  match s with
  | EmptyString => EmptyString
  | String c s' =>
      if Ascii.eqb c LF then String SPACE (spaces_for_newlines s')
      else String c (spaces_for_newlines s')
  end.

(** [escapeCell(text)] of [mcp-server.mjs]; [None] is a falsy [text]. *)
Definition escapeCell (text : option string) : string :=
  spaces_for_newlines (escape_pipes (str_or text "")).

(** Character [c] occurs in [s]. *)
Fixpoint occurs (c : Ascii.ascii) (s : string) : bool :=
  match s with
  | EmptyString => false
  | String c' s' => Ascii.eqb c' c || occurs c s'
  end.

(** Every [|] of [s] comes right after a backslash; [escaped] tells whether
    the character before [s] is one. *)
Fixpoint pipes_guarded (escaped : bool) (s : string) : bool :=
  match s with
  | EmptyString => true
  | String c s' =>
      if Ascii.eqb c PIPE then escaped && pipes_guarded false s'
      else pipes_guarded (Ascii.eqb c BACKSLASH) s'
  end.

End Markdown.

(** ** The element store of the listener, [handleMessage] and the tool
    handler in [src/bridge/mcp-server.mjs] *)

Module McpTools.

(** A JSON value as far as the code tells values apart: [null], an absent
    field ([undefined]), a primitive with its truthiness, or an object. *)
Inductive JsValue : Type :=
| VNull
| VUndefined
| VPrimitive (truthy : bool) (text : string)
| VObject (text : string).

Definition truthy (v : JsValue) : bool :=
  match v with
  | VNull | VUndefined => false
  | VPrimitive b _ => b
  | VObject _ => true
  end.

(** Reading a property of the value throws for [null] and [undefined]. *)
Definition property_readable (v : JsValue) : bool :=
  match v with
  | VNull | VUndefined => false
  | _ => true
  end.

(** A frame from the bridge: not JSON, the JSON [null], an object whose
    [type] is ['element'] with its [data], or any other value. *)
Inductive Incoming : Type :=
| NotJson
| JsonNull
| ElementMessage (data : JsValue)
| OtherMessage.

(** [latestElement], [latestElementTimestamp], and the lines logged:
    [true] for "element received", [false] for "parse failed". *)
Record Store : Type := mkStore {
  latestElement : JsValue;
  latestElementTimestamp : option string;
  logged : list bool
}.

Definition initial : Store := mkStore VNull None [].

(** [handleMessage(data)]; [now] is [new Date().toISOString()]. *)
Definition handleMessage (frame : Incoming) (now : string) (st : Store) : Store :=
  match frame with
  | NotJson => mkStore (latestElement st) (latestElementTimestamp st) (logged st ++ [false])
  | JsonNull => mkStore (latestElement st) (latestElementTimestamp st) (logged st ++ [false])
  | ElementMessage data =>
      if property_readable data
      then mkStore data (Some now) (logged st ++ [true])
      else mkStore data (Some now) (logged st ++ [false])
  | OtherMessage => st
  end.

(** A tool call: the tool name and [args.format] if present. *)
Record Call : Type := mkCall {
  tool : string;
  format : option string
}.

(** What the handler returns: the "no element yet" text, the Markdown
    rendering of an element, the JSON rendering of
    [{ capturedAt, element }], or the "unknown tool" error. *)
Inductive Reply : Type :=
| NoElementYet
| MarkdownOf (element : JsValue)
| JsonOf (capturedAt : option string) (element : JsValue)
| UnknownTool (name : string).

(** [isError] of a reply. *)
Definition isError (r : Reply) : bool :=
  match r with
  | UnknownTool _ => true
  | _ => false
  end.

(** The [CallToolRequestSchema] handler. *)
Definition callTool (c : Call) (st : Store) : Reply :=
  if String.eqb (tool c) "get_selected_element" then
    if negb (truthy (latestElement st)) then NoElementYet
    else if String.eqb (str_or (format c) "json") "markdown"
    then MarkdownOf (latestElement st)
    else JsonOf (latestElementTimestamp st) (latestElement st)
  else UnknownTool (tool c).

Definition receive (st : Store) (m : Incoming * string) : Store :=
  handleMessage (fst m) (snd m) st.

Definition receive_all (ms : list (Incoming * string)) (st : Store) : Store :=
  fold_left receive ms st.

End McpTools.

(** ** Sending from the producer, [sendElement] and [sendPing] of the
    userscript's [Transport] *)

Module Sending.

(** The frames the producer sends. *)
Inductive Frame : Type :=
| ElementSelected (timestamp : string) (data : option string)
| Ping.

(** [elementData || null] *)
Definition or_null (elementData : option string) : option string :=
  match elementData with
  | Some d => if str_truthy d then Some d else None
  | None => None
  end.

(** The guard both functions start with; the socket to send on if it
    passes. *)
Definition sendable (t : Userscript.Transport) : option WsId :=
  match Userscript.connectionState t with
  | Userscript.CONNECTED =>
      match Userscript.ws t with
      | Some w =>
          match Host.readyState w (Userscript.host t) with
          | Host.OPEN => Some w
          | _ => None
          end
      | None => None
      end
  | _ => None
  end.

(** [sendElement(elementData)]: the frame handed to [ws.send], if any. *)
Definition sendElement (elementData : option string) (now : string)
  (t : Userscript.Transport) : option (WsId * Frame) :=
  match sendable t with
  | Some w => Some (w, ElementSelected now (or_null elementData))
  | None => None
  end.

(** [sendPing()] *)
Definition sendPing (t : Userscript.Transport) : option (WsId * Frame) :=
  match sendable t with
  | Some w => Some (w, Ping)
  | None => None
  end.

End Sending.

(** ** Helpers of the userscript's [Collector] *)

Module Collector.

(** [value.slice(0, n)] for [n >= 0] *)
Fixpoint take (n : nat) (s : string) : string :=
  match n, s with
  | O, _ => EmptyString
  | S n', String c s' => String c (take n' s')
  | S _, EmptyString => EmptyString
  end.

(** [_truncateString(value, maxLength)]; [None] is a value that is not a
    string. *)
Definition _truncateString (value : option string) (maxLength : Z) : string :=
  match value with
  | None => EmptyString
  | Some v =>
      if (maxLength <=? 0)%Z then EmptyString
      else if (Z.of_nat (String.length v) <=? maxLength)%Z then v
      else if (maxLength <=? 3)%Z then take (Z.to_nat maxLength) v
      else String.append (take (Z.to_nat (maxLength - 3)) v) "..."
  end.

(** Character classes of the regular expressions, all with the [i] flag. *)
Definition is_digit (c : Ascii.ascii) : bool :=
  let n := Ascii.nat_of_ascii c in Nat.leb 48 n && Nat.leb n 57.

Definition is_letter (c : Ascii.ascii) : bool :=
  let n := Ascii.nat_of_ascii c in
  (Nat.leb 65 n && Nat.leb n 90) || (Nat.leb 97 n && Nat.leb n 122).

Definition is_hex (c : Ascii.ascii) : bool :=
  let n := Ascii.nat_of_ascii c in
  is_digit c || (Nat.leb 65 n && Nat.leb n 70) || (Nat.leb 97 n && Nat.leb n 102).

Definition is_alnum (c : Ascii.ascii) : bool := is_letter c || is_digit c.

Fixpoint all_chars (f : Ascii.ascii -> bool) (s : string) : bool :=
  match s with
  | EmptyString => true
  | String c s' => f c && all_chars f s'
  end.

Fixpoint some_char (f : Ascii.ascii -> bool) (s : string) : bool :=
  match s with
  | EmptyString => false
  | String c s' => f c || some_char f s'
  end.

(** ASCII lower case of a character, for matching under the [i] flag. *)
Definition lower (c : Ascii.ascii) : Ascii.ascii :=
  let n := Ascii.nat_of_ascii c in
  if Nat.leb 65 n && Nat.leb n 90 then Ascii.ascii_of_nat (n + 32) else c.

Fixpoint lower_string (s : string) : string :=
  match s with
  | EmptyString => EmptyString
  | String c s' => String (lower c) (lower_string s')
  end.

(** [/^[a-f0-9]{6,}$/i.test(s)] *)
Definition hex_hash (s : string) : bool :=
  Nat.leb 6 (String.length s) && all_chars is_hex s.

(** [/^(css|sc|jsx)-[a-z0-9]{6,}$/i.test(s)] *)
Definition generated_name (s : string) : bool :=
  let tail_ok (n : nat) :=
    Nat.leb 6 (String.length (Startup.slice_from n s))
    && all_chars is_alnum (Startup.slice_from n s) in
  (String.prefix "css-" (lower_string s) && tail_ok 4)
  || (String.prefix "sc-" (lower_string s) && tail_ok 3)
  || (String.prefix "jsx-" (lower_string s) && tail_ok 4).

(** [_isDynamicClass(className)] *)
Definition _isDynamicClass (className : string) : bool :=
  if negb (str_truthy className) then true
  else if hex_hash className then true
  else if generated_name className then true
  else if Nat.leb 20 (String.length className)
          && some_char is_digit className && some_char is_letter className
  then true
  else false.

(** [_getNthOfTypeIndex(element)] for an element with tag [tagName], given
    the tags of its previous element siblings, nearest first. *)
Fixpoint _getNthOfTypeIndex (tagName : string) (previous : list string) : nat :=
  match previous with
  | [] => 1
  | sibling :: rest =>
      if String.eqb sibling tagName
      then S (_getNthOfTypeIndex tagName rest)
      else _getNthOfTypeIndex tagName rest
  end.

(** One step of [generateXPath] on an element that is not SVG, all tags
    being given in lower case as the loop compares them: the tag, and the
    index put in brackets when [index > 1 || hasSameTag]. *)
Definition xpath_segment (tagName : string) (previous next : list string)
  : string * option nat :=
  let index := _getNthOfTypeIndex tagName previous in
  let hasSameTag := existsb (fun sibling => String.eqb sibling tagName) next in
  if Nat.ltb 1 index || hasSameTag then (tagName, Some index) else (tagName, None).

End Collector.

(** ** Observations on runs of the relay *)

Module Observe.

(** The event is a parsed register frame, on any connection. *)
Definition is_register (e : Bridge.Event) : bool :=
  match e with
  | Bridge.Message _ (Bridge.Parsed (Bridge.JRegister _)) _ => true
  | _ => false
  end.

(** The number of register frames among the events. *)
Definition register_frames (evs : list Bridge.Event) : nat :=
  List.length (filter is_register evs).

(** The frames a dispatch sent, with the socket of each. *)
Fixpoint sent_frames (outs : list Bridge.Output) : list (WsId * string) :=
  match outs with
  | [] => []
  | Bridge.Sent w data :: rest => (w, data) :: sent_frames rest
  | _ :: rest => sent_frames rest
  end.

(** A delay the producer can schedule: [RETRY_INTERVAL * 2^k] for a [k]
    below [MAX_RETRIES]. *)
Definition producer_delay (d : Z) : Prop :=
  exists k : nat,
    k < Userscript.MAX_RETRIES /\ d = (Userscript.RETRY_INTERVAL * 2 ^ Z.of_nat k)%Z.

(** The retry counter is within its ceiling and every delay scheduled so
    far is a [producer_delay]. *)
Definition producer_bounded (t : Userscript.Transport) : Prop :=
  Userscript.reconnectAttempts t <= Userscript.MAX_RETRIES /\
  Forall producer_delay (Userscript.scheduled t).

(** At most one timer is armed, and it is the one [reconnectTimer] holds. *)
Definition single_timer (t : Userscript.Transport) : Prop :=
  Userscript.one_timer t /\ List.length (Host.pending (Userscript.host t)) <= 1.

(** A delay between the initial and the maximum delay of the listener. *)
Definition listener_delay (d : Z) : Prop :=
  (McpServer.INITIAL_RECONNECT_DELAY <= d <= McpServer.MAX_RECONNECT_DELAY)%Z.

(** The delay variable and every delay scheduled so far are in range. *)
Definition listener_bounded (m : McpServer.Mcp) : Prop :=
  listener_delay (McpServer.reconnectDelay m) /\
  Forall listener_delay (McpServer.scheduled m).

(** The listener has shut down: no socket is held and the process was
    told to exit with status 0. *)
Definition shut_down (m : McpServer.Mcp) : Prop :=
  McpServer.isShuttingDown m = true /\
  McpServer.wsConnection m = None /\
  McpServer.exited m = Some 0%Z.

(** The consecutive ports [port, port + 1, ...], [n] of them. *)
Fixpoint ports_from (port : Z) (n : nat) : list Z :=
  match n with
  | O => []
  | S n' => port :: ports_from (port + 1)%Z n'
  end.

End Observe.

(** * Properties *)

Unset Implicit Arguments.

(** ** Facts about the insertion-ordered table *)

Lemma id_eqb_eq : forall a b, id_eqb a b = true <-> a = b.
Proof.
  intros [| |s] [| |t]; simpl; split; intros H; try reflexivity; try discriminate.
  - apply String.eqb_eq in H. now subst.
  - inversion H; subst. apply String.eqb_refl.
Qed.

Section TableFacts.
Variables K V : Type.
Variable eqb : K -> K -> bool.
Hypothesis eqb_eq : forall a b, eqb a b = true <-> a = b.

Lemma eqb_refl_k : forall k, eqb k k = true.
Proof. intros k. now apply eqb_eq. Qed.

Lemma eqb_neq_k : forall a b, a <> b -> eqb a b = false.
Proof.
  intros a b Hab. destruct (eqb a b) eqn:E; [|reflexivity].
  apply eqb_eq in E. contradiction.
Qed.

Lemma get_set :
  forall (k k' : K) (v : V) m,
    JsMap.get eqb k' (JsMap.set eqb k v m)
    = if eqb k k' then Some v else JsMap.get eqb k' m.
Proof.
  intros k k' v m. induction m as [|[k0 v0] m IH]; simpl.
  - reflexivity.
  - destruct (eqb k0 k) eqn:E0; simpl.
    + apply eqb_eq in E0; subst k0.
      destruct (eqb k k'); reflexivity.
    + destruct (eqb k0 k') eqn:E1.
      * destruct (eqb k k') eqn:E2; [|reflexivity].
        apply eqb_eq in E1, E2. subst. rewrite eqb_refl_k in E0. discriminate.
      * exact IH.
Qed.

Lemma get_set_same :
  forall (k : K) (v : V) m, JsMap.get eqb k (JsMap.set eqb k v m) = Some v.
Proof. intros. rewrite get_set, eqb_refl_k. reflexivity. Qed.

Lemma get_In_keys :
  forall (k : K) (m : list (K * V)) v,
    JsMap.get eqb k m = Some v -> In k (JsMap.keys m).
Proof.
  intros k m v. induction m as [|[k0 v0] m IH]; simpl; [discriminate|].
  destruct (eqb k0 k) eqn:E.
  - apply eqb_eq in E. now left.
  - intros H. right. now apply IH.
Qed.

Lemma keys_set :
  forall (k k' : K) (v : V) m,
    In k' (JsMap.keys (JsMap.set eqb k v m)) <-> k' = k \/ In k' (JsMap.keys m).
Proof.
  intros k k' v m. induction m as [|[k0 v0] m IH]; simpl.
  - intuition.
  - destruct (eqb k0 k) eqn:E; simpl.
    + apply eqb_eq in E; subst k0. intuition.
    + rewrite IH. intuition.
Qed.

Lemma set_NoDup :
  forall (k : K) (v : V) m,
    NoDup (JsMap.keys m) -> NoDup (JsMap.keys (JsMap.set eqb k v m)).
Proof.
  intros k v m. induction m as [|[k0 v0] m IH]; simpl; intros H.
  - constructor; [simpl; tauto | constructor].
  - inversion H as [|? ? Hnotin Hnd]; subst.
    destruct (eqb k0 k) eqn:E; simpl.
    + apply eqb_eq in E; subst k0. now constructor.
    + constructor.
      * intros Hin. apply keys_set in Hin. destruct Hin as [->|Hin].
        -- rewrite eqb_refl_k in E. discriminate.
        -- contradiction.
      * now apply IH.
Qed.

Lemma keys_delete :
  forall (k k' : K) (m : list (K * V)),
    In k' (JsMap.keys (JsMap.delete eqb k m)) -> In k' (JsMap.keys m).
Proof.
  intros k k' m. induction m as [|[k0 v0] m IH]; simpl; [tauto|].
  destruct (eqb k0 k); simpl; intuition.
Qed.

Lemma delete_NoDup :
  forall (k : K) (m : list (K * V)),
    NoDup (JsMap.keys m) -> NoDup (JsMap.keys (JsMap.delete eqb k m)).
Proof.
  intros k m. induction m as [|[k0 v0] m IH]; simpl; intros H; [constructor|].
  inversion H as [|? ? Hnotin Hnd]; subst.
  destruct (eqb k0 k); simpl; [assumption|].
  constructor; [|now apply IH].
  intros Hin. apply Hnotin. eapply keys_delete; eauto.
Qed.

Lemma count_notin :
  forall (k : K) (m : list (K * V)),
    ~ In k (JsMap.keys m) -> JsMap.count eqb k m = 0.
Proof.
  intros k m. unfold JsMap.count. induction m as [|[k0 v0] m IH]; simpl; [reflexivity|].
  intros H. destruct (eqb k0 k) eqn:E.
  - apply eqb_eq in E. subst. tauto.
  - apply IH. tauto.
Qed.

Lemma count_NoDup :
  forall (k : K) (m : list (K * V)),
    NoDup (JsMap.keys m) -> JsMap.count eqb k m <= 1.
Proof.
  intros k m. induction m as [|[k0 v0] m IH]; simpl; intros H.
  - unfold JsMap.count. simpl. lia.
  - inversion H as [|? ? Hnotin Hnd]; subst.
    unfold JsMap.count in *. simpl. destruct (eqb k0 k) eqn:E; simpl.
    + apply eqb_eq in E; subst k0.
      pose proof (count_notin k m Hnotin) as C. unfold JsMap.count in C.
      rewrite C. lia.
    + now apply IH.
Qed.

Lemma count_present :
  forall (k : K) (m : list (K * V)) v,
    NoDup (JsMap.keys m) -> JsMap.get eqb k m = Some v -> JsMap.count eqb k m = 1.
Proof.
  intros k m v Hnd Hget.
  pose proof (count_NoDup k m Hnd) as Hle.
  assert (JsMap.count eqb k m <> 0); [|lia].
  clear Hle Hnd. revert Hget. unfold JsMap.count.
  induction m as [|[k0 v0] m IH]; simpl; [discriminate|].
  destruct (eqb k0 k); simpl; [lia | exact IH].
Qed.

Lemma size_set :
  forall (k : K) (v : V) m,
    JsMap.size (JsMap.set eqb k v m)
    = if JsMap.has eqb k m then JsMap.size m else S (JsMap.size m).
Proof.
  intros k v m. unfold JsMap.size, JsMap.has.
  induction m as [|[k0 v0] m IH]; simpl; [reflexivity|].
  destruct (eqb k0 k); simpl; [reflexivity|].
  rewrite IH. destruct (JsMap.get eqb k m); reflexivity.
Qed.

Lemma get_delete_same :
  forall (k : K) (m : list (K * V)),
    NoDup (JsMap.keys m) -> JsMap.get eqb k (JsMap.delete eqb k m) = None.
Proof.
  intros k m. induction m as [|[k0 v0] m IH]; simpl; intros H; [reflexivity|].
  inversion H as [|? ? Hnotin Hnd]; subst.
  destruct (eqb k0 k) eqn:E; simpl.
  - apply eqb_eq in E; subst k0.
    destruct (JsMap.get eqb k m) eqn:G; [|reflexivity].
    exfalso. apply Hnotin. eapply get_In_keys; eauto.
  - rewrite E. now apply IH.
Qed.

End TableFacts.

(** ** The subscriber registry *)

Section Registry.
Import Bridge.

Lemma on_register_subscribers :
  forall w p now st,
    subscribers (on_register w p now st)
    = JsMap.set id_eqb (reg_clientId p) (record_of w p now) (subscribers st).
Proof. reflexivity. Qed.

Lemma on_close_subscribers :
  forall w st,
    subscribers (on_close w st) = subscribers st \/
    subscribers (on_close w st)
    = JsMap.delete id_eqb (local_clientId w st) (subscribers st).
Proof.
  intros w st. unfold on_close.
  destruct (id_truthy (local_clientId w st) && _); [|now left].
  destruct (JsMap.get id_eqb (local_clientId w st) (subscribers st)); [|now left].
  right. reflexivity.
Qed.

Lemma apply_op_NoDup :
  forall st o,
    NoDup (JsMap.keys (subscribers st)) ->
    NoDup (JsMap.keys (subscribers (apply_op st o))).
Proof.
  intros st [w p now|w] H; unfold apply_op.
  - rewrite on_register_subscribers. now apply set_NoDup; [apply id_eqb_eq|].
  - destruct (on_close_subscribers w st) as [E|E]; rewrite E; [assumption|].
    now apply delete_NoDup.
Qed.

Lemma run_ops_NoDup :
  forall ops st,
    NoDup (JsMap.keys (subscribers st)) ->
    NoDup (JsMap.keys (subscribers (run_ops ops st))).
Proof.
  induction ops as [|o ops IH]; intros st H; simpl; [assumption|].
  apply IH. now apply apply_op_NoDup.
Qed.

(** C1.  Whatever sequence of register and transport-close operations the
    registry has gone through, no two of its records share a [clientId];
    and a further register stores its own record under its [clientId],
    as the only record of that id, taking the place of the record that was
    there (the size is unchanged then) and leaving every other id alone. *)
Theorem registry_one_record_per_clientId :
  forall (ops : list Op),
    let st := run_ops ops initial in
    NoDup (JsMap.keys (subscribers st)) /\
    (forall id, JsMap.count id_eqb id (subscribers st) <= 1) /\
    (forall w p now,
       let st' := run_ops (ops ++ [Register w p now]) initial in
       JsMap.get id_eqb (reg_clientId p) (subscribers st') = Some (record_of w p now) /\
       JsMap.count id_eqb (reg_clientId p) (subscribers st') = 1 /\
       JsMap.size (subscribers st')
       = (if JsMap.has id_eqb (reg_clientId p) (subscribers st)
          then JsMap.size (subscribers st)
          else S (JsMap.size (subscribers st))) /\
       (forall id, id <> reg_clientId p ->
          JsMap.get id_eqb id (subscribers st') = JsMap.get id_eqb id (subscribers st))).
Proof.
  intros ops st.
  assert (Hnd : NoDup (JsMap.keys (subscribers st))).
  { apply run_ops_NoDup. constructor. }
  split; [exact Hnd|]. split.
  - intros id. now apply count_NoDup; [apply id_eqb_eq|].
  - intros w p now st'.
    assert (E : subscribers st'
                = JsMap.set id_eqb (reg_clientId p) (record_of w p now) (subscribers st)).
    { unfold st', run_ops. rewrite fold_left_app. reflexivity. }
    rewrite E. repeat split.
    + apply get_set_same, id_eqb_eq.
    + eapply count_present; [apply id_eqb_eq | | apply get_set_same, id_eqb_eq].
      apply set_NoDup; [apply id_eqb_eq | exact Hnd].
    + apply size_set.
    + intros id Hid. rewrite get_set by apply id_eqb_eq.
      rewrite (eqb_neq_k _ id_eqb id_eqb_eq); [reflexivity|congruence].
Qed.

Lemma registry_one_record_per_clientId_witness :
  let c1 := mkRegister (IdStr "c1") (Some "/work/app"%string) (Some "app"%string)
              (Some "mcp-server"%string) (Some 4242%Z) in
  let c2 := mkRegister (IdStr "c2") (Some "/work/lib"%string) (Some "lib"%string)
              (Some "mcp-server"%string) (Some 4343%Z) in
  let ops := [Register 1 c1 1000; Register 2 c2 1500] in
  IdStr "c2" <> reg_clientId c1 /\
  JsMap.get id_eqb (IdStr "c2")
    (subscribers (run_ops (ops ++ [Register 3 c1 2000]) initial))
  = JsMap.get id_eqb (IdStr "c2") (subscribers (run_ops ops initial)).
Proof.
  intros c1 c2 ops.
  assert (Hne : IdStr "c2" <> reg_clientId c1) by discriminate.
  split; [exact Hne|].
  destruct (registry_one_record_per_clientId ops) as (_ & _ & H).
  destruct (H 3 c1 2000%Z) as (_ & _ & _ & Hother).
  exact (Hother (IdStr "c2") Hne).
Defined.

(** C2, the scenario evaluated.  A listener registers as "c1" on transport
    1 and again on transport 2: the registry holds one record for "c1",
    bound to transport 2.  The close handler of transport 1 then deletes
    that record, since it looks the record up by [clientId] alone. *)
Example stale_close_deletes_reregistered_listener :
  let c1 := mkRegister (IdStr "c1") (Some "/work/app"%string) (Some "app"%string)
              (Some "mcp-server"%string) (Some 4242%Z) in
  let st := run_ops [Register 1 c1 1000; Register 2 c1 2000] initial in
  subscribers st = [(IdStr "c1", record_of 2 c1 2000)] /\
  ws (record_of 2 c1 2000) = 2 /\
  subscribers (on_close 1 st) = [] /\
  written (on_close 1 st)
  = [RegisteredLine (Some "app"%string) (Some "mcp-server"%string);
     RegisteredLine (Some "app"%string) (Some "mcp-server"%string);
     DisconnectedLine "app"].
Proof. vm_compute. repeat split. Qed.

(** The same for every relay state and every pair of register payloads
    with one truthy [clientId], on two different transports. *)
Lemma stale_close_deletes_any :
  forall st w1 w2 p1 p2 t1 t2,
    w1 <> w2 ->
    reg_clientId p1 = reg_clientId p2 ->
    id_truthy (reg_clientId p1) = true ->
    NoDup (JsMap.keys (subscribers st)) ->
    let st2 := on_register w2 p2 t2 (on_register w1 p1 t1 st) in
    JsMap.get id_eqb (reg_clientId p2) (subscribers st2) = Some (record_of w2 p2 t2) /\
    JsMap.get id_eqb (reg_clientId p2) (subscribers (on_close w1 st2)) = None.
Proof.
  intros st w1 w2 p1 p2 t1 t2 Hw Hid Htruthy Hnd st2.
  assert (Hget : JsMap.get id_eqb (reg_clientId p2) (subscribers st2)
                 = Some (record_of w2 p2 t2)).
  { apply get_set_same, id_eqb_eq. }
  assert (Hlocal : local_clientId w1 st2 = reg_clientId p2).
  { unfold local_clientId, st2, on_register, write. simpl.
    rewrite !get_set by apply Nat.eqb_eq.
    rewrite (eqb_neq_k _ Nat.eqb Nat.eqb_eq w2 w1) by congruence.
    rewrite Nat.eqb_refl. exact Hid. }
  split; [exact Hget|].
  unfold on_close. rewrite Hlocal, <- Hid, Htruthy, Hid.
  unfold JsMap.has. rewrite Hget. simpl.
  apply get_delete_same; [apply id_eqb_eq|].
  unfold st2. simpl.
  apply set_NoDup; [apply id_eqb_eq|]. apply set_NoDup; [apply id_eqb_eq|]. exact Hnd.
Qed.

Lemma local_clientId_set :
  forall w w' i st subs out,
    local_clientId w (mkRelay subs (JsMap.set Nat.eqb w' i (closures st)) out)
    = if Nat.eqb w' w then i else local_clientId w st.
Proof.
  intros. unfold local_clientId. simpl.
  rewrite get_set by apply Nat.eqb_eq.
  destruct (Nat.eqb w' w); reflexivity.
Qed.

Lemma on_close_closures :
  forall w st, closures (on_close w st) = closures st.
Proof.
  intros w st. unfold on_close.
  destruct (id_truthy _ && _); [|reflexivity].
  destruct (JsMap.get _ _ _); reflexivity.
Qed.

Lemma step_keeps_null :
  forall w st e st',
    is_register_on w e = false ->
    step st e = Some st' ->
    local_clientId w st = IdNull ->
    local_clientId w st' = IdNull.
Proof.
  intros w st e st' Hreg Hstep Hnull.
  destruct e as [w'|w' f now|w']; simpl in Hstep.
  - inversion Hstep; subst. unfold handleSubscriberConnection.
    rewrite local_clientId_set. destruct (Nat.eqb w' w); [reflexivity|assumption].
  - destruct f as [|[p|id| |]]; simpl in Hstep; inversion Hstep; subst; clear Hstep.
    + exact Hnull.
    + simpl in Hreg. unfold on_register, write. simpl.
      change (local_clientId w
                (mkRelay (JsMap.set id_eqb (reg_clientId p) (record_of w' p now) (subscribers st))
                   (JsMap.set Nat.eqb w' (reg_clientId p) (closures st))
                   (written st ++ [RegisteredLine (reg_projectName p) (reg_tty p)]))
              = IdNull).
      rewrite local_clientId_set, Hreg. exact Hnull.
    + unfold on_heartbeat.
      destruct (JsMap.get id_eqb id (subscribers st)); exact Hnull.
    + exact Hnull.
  - inversion Hstep; subst. unfold local_clientId in *.
    rewrite on_close_closures. exact Hnull.
Qed.

Lemma run_keeps_null :
  forall w evs st st',
    forallb (fun e => negb (is_register_on w e)) evs = true ->
    run evs st = Some st' ->
    local_clientId w st = IdNull ->
    local_clientId w st' = IdNull.
Proof.
  intros w. induction evs as [|e evs IH]; intros st st' Hall Hrun Hnull; simpl in *.
  - inversion Hrun; subst. exact Hnull.
  - apply andb_true_iff in Hall. destruct Hall as [He Hall].
    apply negb_true_iff in He.
    destruct (step st e) as [st1|] eqn:Hs; [|discriminate].
    eapply IH; eauto. eapply step_keeps_null; eauto.
Qed.

(** C10.  A subscriber connection is accepted on transport [w], in any
    relay state, and closes after any events (on this or other
    connections) none of which is a parsed register frame on [w]: its
    [clientId] variable is still [null] and the close handler returns the
    relay as it found it, registry included. *)
Theorem close_before_register_changes_nothing :
  forall (w : WsId) (st0 : Relay) (evs : list Event) (st : Relay),
    forallb (fun e => negb (is_register_on w e)) evs = true ->
    run evs (handleSubscriberConnection w st0) = Some st ->
    local_clientId w st = IdNull /\
    on_close w st = st /\
    subscribers (on_close w st) = subscribers st.
Proof.
  intros w st0 evs st Hall Hrun.
  assert (Hnull : local_clientId w st = IdNull).
  { eapply run_keeps_null; eauto.
    unfold handleSubscriberConnection. rewrite local_clientId_set.
    now rewrite Nat.eqb_refl. }
  assert (Hclose : on_close w st = st).
  { unfold on_close. rewrite Hnull. reflexivity. }
  split; [exact Hnull|]. split; [exact Hclose|]. now rewrite Hclose.
Qed.

Lemma close_before_register_changes_nothing_witness :
  let c2 := mkRegister (IdStr "c2") None (Some "other"%string) None None in
  let evs := [Message 7 Unparsable 10%Z;
              Message 3 (Parsed (JRegister c2)) 20%Z;
              Message 7 (Parsed (JHeartbeat (IdStr "c2"))) 30%Z;
              Message 7 (Parsed JOther) 40%Z] in
  exists st,
    run evs (handleSubscriberConnection 7 initial) = Some st /\
    JsMap.size (subscribers st) = 1 /\
    on_close 7 st = st.
Proof.
  intros c2 evs.
  eexists. split; [reflexivity|]. split; [reflexivity|].
  apply (close_before_register_changes_nothing 7 initial evs); reflexivity.
Defined.

End Registry.

(** ** Target arbitration and dispatch *)

Section Arbitration.
Import Bridge.

Lemma filter_all_false :
  forall (A : Type) (f : A -> bool) (l : list A),
    (forall x, In x l -> f x = false) -> filter f l = [].
Proof.
  intros A f l. induction l as [|a l IH]; intros H; simpl; [reflexivity|].
  rewrite (H a (or_introl eq_refl)). apply IH. intros x Hx. apply H. now right.
Qed.

Lemma filter_single :
  forall (A : Type) (f : A -> bool) (l1 l2 : list A) (a : A),
    f a = true ->
    (forall x, In x (l1 ++ l2) -> f x = false) ->
    filter f (l1 ++ a :: l2) = [a].
Proof.
  intros A f l1 l2 a Ha H. rewrite filter_app. simpl. rewrite Ha.
  rewrite !filter_all_false; [reflexivity | |];
    intros x Hx; apply H; apply in_or_app; [now right | now left].
Qed.

Lemma focus_scan_none :
  forall title cs,
    (forall c, In c cs ->
       includes title (projectPath c) = false /\ includes title (tty c) = false) ->
    focus_scan title cs = None.
Proof.
  intros title cs. induction cs as [|c cs IH]; intros H; simpl; [reflexivity|].
  destruct (H c (or_introl eq_refl)) as [Hp Ht]. rewrite Hp, Ht, !andb_false_r.
  apply IH. intros c' Hc'. apply H. now right.
Qed.

Lemma selectTargetClient_many :
  forall subs,
    2 <= JsMap.size subs ->
    selectTargetClient subs
    = DetectActiveTTY (fun activeWindow now =>
        match focus_match activeWindow (JsMap.values subs) with
        | Some (client, line) => (Some client, [line])
        | None => heartbeat_match now (JsMap.values subs)
        end).
Proof.
  intros [|e1 [|e2 rest]] H; unfold JsMap.size in H; simpl in H; try lia.
  reflexivity.
Qed.

(** C3.  A registry of exactly one record: the arbitrator returns that
    record at once, writing the direct-route line; it does not call the
    focus probe and does not read the clock, so the outcome is the same for
    every heartbeat age and every probe result. *)
Theorem single_listener_always_selected :
  forall (subs : list (JsId * Client)) (world : World),
    JsMap.size subs = 1 ->
    exists c,
      JsMap.values subs = [c] /\
      selectTargetClient subs = Return (Some c) [RouterDirect (projectName c)] /\
      decide (selectTargetClient subs) world
      = mkDecision (Some c) [RouterDirect (projectName c)] false.
Proof.
  intros [|[id c] [|e rest]] world H; unfold JsMap.size in H; simpl in H; try discriminate.
  exists c. repeat split.
Qed.

Lemma single_listener_always_selected_witness :
  let stale := mkClient 4 "/work/app" "app" "ttys001" 77 0 in
  let world := mkWorld (Some "editor - /elsewhere"%string) 999999%Z (fun _ => 1%Z) in
  exists c,
    JsMap.values [(IdStr "c1", stale)] = [c] /\
    selectTargetClient [(IdStr "c1", stale)] = Return (Some c) [RouterDirect (projectName c)] /\
    decide (selectTargetClient [(IdStr "c1", stale)]) world
    = mkDecision (Some c) [RouterDirect (projectName c)] false.
Proof.
  intros stale world.
  apply (single_listener_always_selected [(IdStr "c1", stale)] world).
  reflexivity.
Defined.

(** C4.  At least two records; the probe returned [null] or an empty
    title, or a title in which no record's [projectPath] or [tty] occurs;
    exactly one record, [c], has a heartbeat less than 3000 ms old at the
    time the arbitrator reads the clock.  Then the arbitrator selects [c]
    by the heartbeat rule. *)
Theorem unique_fresh_listener_selected :
  forall (subs : list (JsId * Client)) (world : World)
         (before after : list Client) (c : Client),
    2 <= JsMap.size subs ->
    JsMap.values subs = before ++ c :: after ->
    (clock world - lastHeartbeat c < 3000)%Z ->
    (forall c', In c' (before ++ after) ->
       (3000 <= clock world - lastHeartbeat c')%Z) ->
    (activeWindow world = None \/
     activeWindow world = Some ""%string \/
     exists title,
       activeWindow world = Some title /\
       forall c', In c' (JsMap.values subs) ->
         includes title (projectPath c') = false /\
         includes title (tty c') = false) ->
    decide (selectTargetClient subs) world
    = mkDecision (Some c) [RouterHeartbeat (projectName c)] true.
Proof.
  intros subs world before after c Hsize Hvals Hfresh Hstale Hprobe.
  rewrite selectTargetClient_many by exact Hsize. unfold decide.
  assert (Hfocus : focus_match (activeWindow world) (JsMap.values subs) = None).
  { destruct Hprobe as [E|[E|[title [E Hno]]]]; rewrite E; simpl; try reflexivity.
    destruct (str_truthy title); [|reflexivity].
    now apply focus_scan_none. }
  rewrite Hfocus. unfold heartbeat_match. rewrite Hvals.
  rewrite (filter_single _ (recent (clock world)) before after c).
  - reflexivity.
  - unfold recent. apply Z.ltb_lt. exact Hfresh.
  - intros x Hx. unfold recent. apply Z.ltb_ge. now apply Hstale.
Qed.

Lemma unique_fresh_listener_selected_witness :
  let a := mkClient 1 "/work/app" "app" "ttys001" 11 9000 in
  let b := mkClient 2 "/work/lib" "lib" "ttys002" 12 4000 in
  let subs := [(IdStr "a", a); (IdStr "b", b)] in
  let world := mkWorld (Some "notes.txt"%string) 10000%Z (fun _ => 1%Z) in
  decide (selectTargetClient subs) world
  = mkDecision (Some a) [RouterHeartbeat "app"] true.
Proof.
  intros a b subs world.
  apply (unique_fresh_listener_selected subs world [] [b] a).
  - unfold JsMap.size. simpl. lia.
  - reflexivity.
  - simpl. lia.
  - intros c' [<-|[]]. simpl. lia.
  - right. right. exists "notes.txt"%string. split; [reflexivity|].
    intros c' [<-|[<-|[]]]; split; reflexivity.
Defined.

Lemma heartbeat_match_declines :
  forall now cs,
    fst (heartbeat_match now cs) = None ->
    (2 <= List.length (filter (recent now) cs) /\
     snd (heartbeat_match now cs)
     = [RouterConflict (List.length (filter (recent now) cs))
          (map projectName (filter (recent now) cs))]) \/
    (filter (recent now) cs = [] /\
     snd (heartbeat_match now cs) = [RouterTimeout (map projectName cs)]).
Proof.
  intros now cs. unfold heartbeat_match.
  destruct (filter (recent now) cs) as [|c1 [|c2 rest]]; simpl.
  - intros _. right. split; reflexivity.
  - discriminate.
  - intros _. left. split; [lia | reflexivity].
Qed.

Lemma no_Sent_in_written :
  forall data ls w x, ~ In (Sent w x) (Pasted data :: map Wrote ls).
Proof.
  intros data ls w x [H|H]; [discriminate|].
  apply in_map_iff in H. destruct H as [l [H _]]. discriminate.
Qed.

(** The decline paths of a dispatch.  Whenever [formatElementForPaste]
    returns and the arbitrator returns no target, the handler returns
    normally, its output consists of the auto-paste and of the lines the
    arbitrator wrote, and nothing is sent on any socket.  The lines are:
    none at all when the registry is empty (the probe is not called
    either); the conflict line, naming the fresh listeners, when the
    registry is not empty and at least two heartbeats are less than 3000 ms
    old (no listener matched the focus probe then); the timeout line,
    naming all registered listeners, when the registry is not empty and no
    heartbeat is that recent. *)
Lemma declined_event_is_dropped :
  forall (fmt : string -> option string) (st : Relay) (world : World)
         (data message : string),
    let cs := JsMap.values (subscribers st) in
    let d := decide (selectTargetClient (subscribers st)) world in
    let fresh := filter (recent (clock world)) cs in
    fmt data = Some message ->
    target d = None ->
    on_browser_message fmt st world (BEvent data)
    = Some (Pasted message :: map Wrote (lines d)) /\
    (forall w x, ~ In (Sent w x) (Pasted message :: map Wrote (lines d))) /\
    (subscribers st = [] -> lines d = [] /\ probed d = false) /\
    (subscribers st <> [] -> 2 <= List.length fresh ->
       focus_match (activeWindow world) cs = None /\
       lines d = [RouterConflict (List.length fresh) (map projectName fresh)]) /\
    (subscribers st <> [] -> fresh = [] ->
       focus_match (activeWindow world) cs = None /\
       lines d = [RouterTimeout (map projectName cs)]).
Proof.
  intros fmt st world data message cs d fresh Hfmt Hnone.
  assert (Hout : on_browser_message fmt st world (BEvent data)
                 = Some (Pasted message :: map Wrote (lines d))).
  { unfold on_browser_message. rewrite Hfmt. fold d. rewrite Hnone.
    now rewrite app_nil_r. }
  split; [exact Hout|]. split.
  { intros w x. apply no_Sent_in_written. }
  destruct (subscribers st) as [|e1 [|e2 rest]] eqn:Hsubs.
  - split; [intros _; split; reflexivity|]. split; intros H; congruence.
  - destruct e1 as [id c]. discriminate Hnone.
  - assert (Hd : d = let '(t, ls) :=
                       match focus_match (activeWindow world) cs with
                       | Some (client, line) => (Some client, [line])
                       | None => heartbeat_match (clock world) cs
                       end in mkDecision t ls true).
    { unfold d, cs. reflexivity. }
    destruct (focus_match (activeWindow world) cs) as [[client line]|] eqn:Hfocus.
    { rewrite Hd in Hnone. discriminate Hnone. }
    destruct (heartbeat_match (clock world) cs) as [t ls] eqn:Hhb.
    rewrite Hd in Hnone. simpl in Hnone. subst t.
    destruct (heartbeat_match_declines (clock world) cs) as [[Hlen Hls]|[Hnil Hls]];
      [rewrite Hhb; reflexivity | |]; rewrite Hhb in Hls; simpl in Hls.
    + split; [discriminate|]. split.
      * intros _ _. split; [reflexivity|]. rewrite Hd. exact Hls.
      * intros _ Hnil. unfold fresh in Hnil. rewrite Hnil in Hlen. simpl in Hlen. lia.
    + split; [discriminate|]. split.
      * intros _ Hlen. unfold fresh in Hlen. rewrite Hnil in Hlen. simpl in Hlen. lia.
      * intros _ _. split; [reflexivity|]. rewrite Hd. exact Hls.
Qed.

(** C5, evaluated where the code departs from it.  The registry is empty
    and an event arrives on which [formatElementForPaste] returns.  The
    arbitrator returns no target without calling the probe; the handler
    returns normally and sends nothing; and the whole output of the
    dispatch is the auto-paste: no line is written, neither by the
    arbitrator nor by its caller, so no "no listeners" reason is
    emitted. *)
Theorem empty_registry_emits_no_reason :
  forall (fmt : string -> option string) (st : Relay) (world : World)
         (data message : string),
    subscribers st = [] ->
    fmt data = Some message ->
    decide (selectTargetClient (subscribers st)) world = mkDecision None [] false /\
    on_browser_message fmt st world (BEvent data) = Some [Pasted message] /\
    ~ (exists outs l,
         on_browser_message fmt st world (BEvent data) = Some outs /\ In (Wrote l) outs).
Proof.
  intros fmt st world data message Hempty Hfmt.
  assert (Hout : on_browser_message fmt st world (BEvent data) = Some [Pasted message]).
  { unfold on_browser_message. rewrite Hfmt, Hempty. reflexivity. }
  split; [rewrite Hempty; reflexivity|]. split; [exact Hout|].
  intros (outs & l & Hsome & Hin). rewrite Hout in Hsome. inversion Hsome; subst.
  destruct Hin as [H|[]]. discriminate H.
Qed.

Lemma empty_registry_emits_no_reason_witness :
  let fmt := fun data : string => Some (String.append "[Web Inspector] " data) in
  let world := mkWorld None 10000%Z (fun _ => 1%Z) in
  on_browser_message fmt initial world (BEvent "{tagName:'div'}")
  = Some [Pasted "[Web Inspector] {tagName:'div'}"].
Proof.
  intros fmt world.
  exact (proj1 (proj2 (empty_registry_emits_no_reason fmt initial world
                         "{tagName:'div'}" "[Web Inspector] {tagName:'div'}"
                         eq_refl eq_refl))).
Defined.

(** ** Port selection *)

(** C9.  The requested port is in use.  The next port tried is [port + 1],
    then [port + 2]; the first of them that listens is the one served.  If
    all three fail with address-in-use, exactly the three ports were tried,
    [createServer] rejects with that error, and the process exits with
    status 1. *)
Theorem port_retry_three_attempts :
  forall (tryPort : Z -> TryPort) (subscriberServer : bool) (port : Z),
    tryPort port = Failing EADDRINUSE ->
    (tryPort (port + 1)%Z = Listening ->
       createServer tryPort port = (Resolved (port + 1)%Z, [port; (port + 1)%Z])) /\
    (tryPort (port + 1)%Z = Failing EADDRINUSE ->
     tryPort (port + 2)%Z = Listening ->
       createServer tryPort port
       = (Resolved (port + 2)%Z, [port; (port + 1)%Z; (port + 2)%Z])) /\
    (tryPort (port + 1)%Z = Failing EADDRINUSE ->
     tryPort (port + 2)%Z = Failing EADDRINUSE ->
       createServer tryPort port
       = (Rejected EADDRINUSE, [port; (port + 1)%Z; (port + 2)%Z]) /\
       main tryPort subscriberServer port = Exited 1 /\
       (1 <> 0)%Z).
Proof.
  intros tryPort subscriberServer port H0.
  unfold main, createServer. simpl.
  replace (port + 0)%Z with port by lia. rewrite H0. simpl.
  replace (port + (0 + 1))%Z with (port + 1)%Z by lia.
  replace (port + (0 + 1 + 1))%Z with (port + 2)%Z by lia.
  split; [|split].
  - intros H1. rewrite H1. reflexivity.
  - intros H1 H2. rewrite H1. simpl. rewrite H2. reflexivity.
  - intros H1 H2. rewrite H1. simpl. rewrite H2. simpl.
    repeat split. discriminate.
Qed.

Lemma port_retry_three_attempts_witness :
  let busy := fun _ : Z => Failing EADDRINUSE in
  createServer busy 51765
  = (Rejected EADDRINUSE, [51765; 51766; 51767]%Z) /\
  main busy true 51765 = Exited 1.
Proof.
  intros busy.
  destruct (port_retry_three_attempts busy true 51765%Z eq_refl) as [_ [_ H]].
  destruct (H eq_refl eq_refl) as [H1 [H2 _]].
  split; [exact H1 | exact H2].
Defined.

End Arbitration.

(** ** The listener endpoint *)

Lemma update_length :
  forall l i r, List.length (Host.update l i r) = List.length l.
Proof.
  induction l as [|x l IH]; intros [|i] r; simpl; try reflexivity.
  now rewrite IH.
Qed.

Section Listener.
Import McpServer.

Lemma backoff_step :
  forall k : nat,
    Z.min (Z.min (INITIAL_RECONNECT_DELAY * 2 ^ Z.of_nat k) MAX_RECONNECT_DELAY * 2)
      MAX_RECONNECT_DELAY
    = Z.min (INITIAL_RECONNECT_DELAY * 2 ^ Z.of_nat (S k)) MAX_RECONNECT_DELAY.
Proof.
  intros k. unfold INITIAL_RECONNECT_DELAY, MAX_RECONNECT_DELAY.
  rewrite Nat2Z.inj_succ, Z.pow_succ_r by lia.
  assert (0 < 2 ^ Z.of_nat k)%Z by (apply Z.pow_pos_nonneg; lia).
  lia.
Qed.

(** One failure of the attempt in flight: the current delay is scheduled,
    and the next attempt starts with the delay doubled up to the maximum. *)
Lemma fail_and_retry_attempting :
  forall d m,
    attempting d m ->
    attempting (Z.min (d * 2) MAX_RECONNECT_DELAY) (fail_and_retry m) /\
    scheduled (fail_and_retry m) = scheduled m ++ [d].
Proof.
  intros d m (Hshut & (w & Hws & Hex) & Hpend & Hdelay).
  destruct m as [wsC hb delay shut [socks touts pend] snt ints ex].
  simpl in *. subst. unfold fail_and_retry. simpl.
  rewrite Hex. unfold on_close. simpl. unfold scheduleReconnect. simpl.
  unfold Host.armed. simpl. rewrite Nat.eqb_refl. simpl.
  unfold reconnect_callback, connectToBridge. simpl.
  rewrite Nat.eqb_refl. simpl.
  repeat split.
  exists (List.length (Host.update socks w Host.CLOSED)). split; [reflexivity|].
  unfold Host.exists_socket. simpl. rewrite length_app. simpl.
  apply Nat.ltb_lt. lia.
Qed.

Lemma failures_schedule :
  forall n k m,
    attempting (Z.min (INITIAL_RECONNECT_DELAY * 2 ^ Z.of_nat k) MAX_RECONNECT_DELAY) m ->
    attempting (Z.min (INITIAL_RECONNECT_DELAY * 2 ^ Z.of_nat (k + n)) MAX_RECONNECT_DELAY)
      (failures n m) /\
    scheduled (failures n m)
    = scheduled m
      ++ map (fun j => Z.min (INITIAL_RECONNECT_DELAY * 2 ^ Z.of_nat (k + j))
                         MAX_RECONNECT_DELAY) (seq 0 n).
Proof.
  induction n as [|n IH]; intros k m Hm; simpl.
  - rewrite Nat.add_0_r, app_nil_r. now split.
  - destruct (fail_and_retry_attempting _ m Hm) as [Hnext Hsched].
    rewrite backoff_step in Hnext.
    destruct (IH (S k) _ Hnext) as [Hfin Hall].
    replace (k + S n)%nat with (S k + n)%nat by lia.
    split; [exact Hfin|].
    rewrite Hall, Hsched, <- app_assoc. simpl. rewrite Nat.add_0_r.
    f_equal. f_equal. rewrite <- seq_shift, map_map.
    apply map_ext. intros j. now replace (k + S j)%nat with (S (k + j))%nat by lia.
Qed.

Lemma first_attempt_attempting :
  attempting INITIAL_RECONNECT_DELAY (connectToBridge initial).
Proof.
  unfold attempting. simpl. repeat split. exists 0%nat. split; reflexivity.
Qed.

Lemma succeed_attempting :
  forall d m,
    attempting d m -> attempting INITIAL_RECONNECT_DELAY (succeed m) /\
                      scheduled (succeed m) = scheduled m.
Proof.
  intros d m (Hshut & (w & Hws & Hex) & Hpend & Hdelay).
  destruct m as [wsC hb delay shut [socks touts pend] snt ints ex].
  simpl in *. subst. unfold succeed. simpl. rewrite Hex.
  unfold on_open, register, sendToWs. simpl.
  destruct (Host.readyState w _); simpl; repeat split;
    exists w; (split; [reflexivity|]);
    unfold Host.exists_socket in *; simpl; now rewrite update_length.
Qed.

End Listener.

(** ** The producer endpoint *)

Lemma close_timeouts :
  forall w e, Host.timeouts (Host.close w e) = Host.timeouts e.
Proof. intros. unfold Host.close. destruct (Host.readyState w e); reflexivity. Qed.

Lemma close_pending :
  forall w e, Host.pending (Host.close w e) = Host.pending e.
Proof. intros. unfold Host.close. destruct (Host.readyState w e); reflexivity. Qed.

Lemma close_sockets_length :
  forall w e,
    List.length (Host.sockets (Host.close w e)) = List.length (Host.sockets e).
Proof.
  intros. unfold Host.close.
  destruct (Host.readyState w e); simpl; try reflexivity; apply update_length.
Qed.

Section Producer.
Import Userscript.

Lemma one_timer_nil :
  forall t, Host.pending (host t) = [] -> one_timer t.
Proof. intros t H h Hin. rewrite H in Hin. destruct Hin. Qed.

(** Clearing the timer [reconnectTimer] refers to leaves none armed. *)
Lemma cleared_pending :
  forall t,
    one_timer t ->
    Host.pending (match reconnectTimer t with
                  | Some h => Host.clearTimeout h (host t)
                  | None => host t
                  end) = [].
Proof.
  intros t Hinv. unfold one_timer in Hinv.
  destruct (reconnectTimer t) as [h|] eqn:Ht.
  - simpl. apply filter_all_false. intros h' Hin.
    specialize (Hinv h' Hin). inversion Hinv; subst.
    now rewrite Nat.eqb_refl.
  - destruct (Host.pending (host t)) as [|h' rest]; [reflexivity|].
    specialize (Hinv h' (or_introl eq_refl)). discriminate.
Qed.

Lemma fired_pending :
  forall t h,
    one_timer t ->
    Host.armed h (host t) = true ->
    Host.pending (Host.clearTimeout h (host t)) = [].
Proof.
  intros t h Hinv Harmed. unfold Host.armed in Harmed.
  apply existsb_exists in Harmed. destruct Harmed as [h0 [Hin Heq]].
  apply Nat.eqb_eq in Heq. subst h0.
  pose proof (Hinv h Hin) as Ht.
  simpl. apply filter_all_false. intros h' Hin'.
  specialize (Hinv h' Hin'). rewrite Ht in Hinv. inversion Hinv; subst.
  now rewrite Nat.eqb_refl.
Qed.

Lemma scheduleReconnect_one_timer :
  forall t, one_timer t -> one_timer (scheduleReconnect t).
Proof.
  intros t Hinv. unfold scheduleReconnect.
  destruct (Nat.leb MAX_RETRIES (reconnectAttempts t)); [exact Hinv|].
  pose proof (cleared_pending t Hinv) as Hc.
  destruct (match reconnectTimer t with
            | Some h => Host.clearTimeout h (host t)
            | None => host t
            end) as [socks touts pend] eqn:Hh.
  simpl in Hc. subst pend. unfold Host.setTimeout. simpl.
  intros h [Hin|[]]. simpl. now subst.
Qed.

Lemma connect_one_timer :
  forall c t, one_timer t -> one_timer (connect c t).
Proof.
  intros c t Hinv. unfold connect.
  destruct (connectionState t); try exact Hinv.
  destruct c.
  - exact Hinv.
  - apply scheduleReconnect_one_timer. exact Hinv.
Qed.

Lemma disconnect_pending :
  forall t, one_timer t -> Host.pending (host (disconnect t)) = [].
Proof.
  intros t Hinv. pose proof (cleared_pending t Hinv) as Hc.
  unfold disconnect. simpl.
  destruct (ws t); [rewrite close_pending|]; exact Hc.
Qed.

Lemma step_one_timer :
  forall t e, one_timer t -> one_timer (step t e).
Proof.
  intros t [e|[c|]] Hinv; simpl.
  - destruct e as [w|w|w|w|h c]; simpl.
    + destruct (Host.exists_socket w (host t)); [|exact Hinv].
      apply one_timer_nil. unfold on_open, resetReconnect. simpl.
      apply (cleared_pending (with_host (Host.set_readyState w Host.OPEN (host t)) t)).
      exact Hinv.
    + destruct (Host.exists_socket w (host t)); [|exact Hinv].
      unfold on_close. simpl.
      destruct (negb (isManualClose t) && negb (isReconnecting t)).
      * apply scheduleReconnect_one_timer. exact Hinv.
      * exact Hinv.
    + destruct (Host.exists_socket w (host t)); [|exact Hinv].
      unfold on_error. destruct (ws t); [|exact Hinv].
      intros h Hin. simpl in Hin. rewrite close_pending in Hin. now apply Hinv.
    + exact Hinv.
    + destruct (Host.armed h (host t)) eqn:Harmed; [|exact Hinv].
      apply connect_one_timer. apply one_timer_nil. simpl.
      now apply (fired_pending t h).
  - now apply connect_one_timer.
  - apply one_timer_nil. now apply disconnect_pending.
Qed.

Lemma run_one_timer :
  forall evs t, one_timer t -> one_timer (run evs t).
Proof.
  induction evs as [|e evs IH]; intros t Hinv; simpl; [exact Hinv|].
  apply IH. now apply step_one_timer.
Qed.

Lemma initial_one_timer : one_timer initial.
Proof. apply one_timer_nil. reflexivity. Qed.

(** [disconnect()] arms nothing, schedules nothing and opens no socket. *)
Lemma disconnect_closed_manually :
  forall t,
    one_timer t ->
    closed_manually (disconnect t) /\
    scheduled (disconnect t) = scheduled t /\
    List.length (Host.sockets (host (disconnect t))) = List.length (Host.sockets (host t)).
Proof.
  intros t Hinv. split; [split; [reflexivity | now apply disconnect_pending]|].
  unfold scheduled, disconnect. simpl.
  destruct (ws t); [rewrite close_timeouts, close_sockets_length|];
    destruct (reconnectTimer t); split; reflexivity.
Qed.

(** Once closed manually, no event of the host schedules a reconnect or
    opens a socket, and the endpoint stays closed manually. *)
Lemma host_step_closed_manually :
  forall t e,
    closed_manually t ->
    closed_manually (host_step t e) /\
    scheduled (host_step t e) = scheduled t /\
    List.length (Host.sockets (host (host_step t e))) = List.length (Host.sockets (host t)).
Proof.
  intros t e [Hman Hpend]. unfold closed_manually, scheduled.
  destruct e as [w|w|w|w|h c]; simpl.
  - destruct (Host.exists_socket w (host t)); [|now repeat split].
    unfold on_open, resetReconnect. simpl.
    destruct (reconnectTimer t); simpl; rewrite Hpend, update_length; now repeat split.
  - destruct (Host.exists_socket w (host t)); [|now repeat split].
    unfold on_close. simpl. rewrite Hman. simpl.
    rewrite update_length. now repeat split.
  - destruct (Host.exists_socket w (host t)); [|now repeat split].
    unfold on_error. destruct (ws t); [|now repeat split].
    simpl. rewrite close_pending, close_timeouts, close_sockets_length.
    now repeat split.
  - now repeat split.
  - unfold Host.armed. rewrite Hpend. simpl. now repeat split.
Qed.

Lemma host_run_closed_manually :
  forall post t,
    closed_manually t ->
    closed_manually (run (map FromHost post) t) /\
    scheduled (run (map FromHost post) t) = scheduled t /\
    List.length (Host.sockets (host (run (map FromHost post) t)))
    = List.length (Host.sockets (host t)).
Proof.
  induction post as [|e post IH]; intros t H; simpl;
    [split; [exact H | split; reflexivity]|].
  destruct (host_step_closed_manually t e H) as (H1 & H2 & H3).
  destruct (IH _ H1) as (H4 & H5 & H6).
  split; [exact H4|]. split; congruence.
Qed.

Lemma throwing_retries_idle :
  forall n t, Host.pending (host t) = [] -> throwing_retries n t = t.
Proof.
  induction n as [|n IH]; intros t H; simpl; [reflexivity|].
  unfold fire_armed. rewrite H. now apply IH.
Qed.

Lemma throwing_retries_add :
  forall a b t, throwing_retries (a + b) t = throwing_retries b (throwing_retries a t).
Proof.
  induction a as [|a IH]; intros b t; simpl; [reflexivity|]. apply IH.
Qed.

Lemma throwing_failures_schedule :
  forall n,
    scheduled (after_throwing_failures n)
    = map (fun k => (RETRY_INTERVAL * 2 ^ Z.of_nat k)%Z) (seq 0 (Nat.min n MAX_RETRIES)).
Proof.
  intros n.
  destruct n as [|[|[|[|[|[|n]]]]]]; try reflexivity.
  unfold after_throwing_failures.
  replace (S (S (S (S (S n))))) with (5 + n)%nat by lia.
  rewrite throwing_retries_add, throwing_retries_idle; reflexivity.
Qed.

End Producer.

(** ** Manual close and shutdown *)

Section Shutdown.
Import McpServer.

Lemma shutdown_footprint :
  forall m,
    isShuttingDown (shutdown m) = true /\
    scheduled (shutdown m) = scheduled m /\
    List.length (Host.sockets (host (shutdown m))) = List.length (Host.sockets (host m)).
Proof.
  intros m. unfold shutdown, scheduled.
  destruct (isShuttingDown m) eqn:Hs; [now repeat split|].
  simpl. destruct (wsConnection m); simpl;
    [rewrite close_timeouts, close_sockets_length|]; now repeat split.
Qed.

(** While shutting down, no event schedules a reconnect or opens a socket,
    and the flag stays set. *)
Lemma step_shutting_down :
  forall m e,
    isShuttingDown m = true ->
    isShuttingDown (step m e) = true /\
    scheduled (step m e) = scheduled m /\
    List.length (Host.sockets (host (step m e))) = List.length (Host.sockets (host m)).
Proof.
  intros m e Hs. unfold scheduled.
  destruct e as [w|w|w|h|h now| |]; simpl.
  - destruct (Host.exists_socket w (host m)); [|now repeat split].
    unfold on_open, startHeartbeat, stopHeartbeat, register, sendToWs. simpl.
    destruct (wsConnection m) as [w'|]; simpl.
    + destruct (Host.readyState w' _); simpl; rewrite update_length; now repeat split.
    + rewrite update_length; now repeat split.
  - destruct (Host.exists_socket w (host m)); [|now repeat split].
    unfold on_close. simpl. rewrite Hs. simpl. rewrite update_length. now repeat split.
  - now repeat split.
  - destruct (Host.armed h (host m)); [|now repeat split].
    unfold reconnect_callback, connectToBridge. simpl. rewrite Hs. simpl.
    now repeat split.
  - destruct (heartbeatTimer m) as [h'|]; [|now repeat split].
    destruct (Nat.eqb h h'); [|now repeat split].
    unfold sendToWs. destruct (wsConnection m) as [w'|]; [|now repeat split].
    destruct (Host.readyState w' (host m)); simpl; now repeat split.
  - unfold connectToBridge. rewrite Hs. now repeat split.
  - unfold shutdown. rewrite Hs. now repeat split.
Qed.

Lemma run_shutting_down :
  forall evs m,
    isShuttingDown m = true ->
    scheduled (run evs m) = scheduled m /\
    List.length (Host.sockets (host (run evs m))) = List.length (Host.sockets (host m)).
Proof.
  induction evs as [|e evs IH]; intros m Hs; simpl; [now split|].
  destruct (step_shutting_down m e Hs) as (H1 & H2 & H3).
  destruct (IH _ H1) as [H4 H5]. split; congruence.
Qed.

End Shutdown.

(** C7, as the code has it.  Producer: after [disconnect()], whatever
    happened before, no sequence of socket events and timer firings
    schedules a reconnect or opens a socket, and no timer is armed; this
    lasts until [connect()] is called again.  Listener: after [shutdown()],
    no sequence of events at all, calls of [connectToBridge()] included,
    schedules a reconnect or opens a socket. *)
Theorem no_reconnect_after_manual_close :
  (forall (pre : list Userscript.Event) (post : list Userscript.HostEvent),
     let before := Userscript.run pre Userscript.initial in
     let after := Userscript.run (map Userscript.FromHost post)
                    (Userscript.disconnect before) in
     Userscript.scheduled after = Userscript.scheduled before /\
     List.length (Host.sockets (Userscript.host after))
     = List.length (Host.sockets (Userscript.host before)) /\
     Host.pending (Userscript.host after) = []) /\
  (forall (pre post : list McpServer.Event),
     let before := McpServer.run pre McpServer.initial in
     let after := McpServer.run post (McpServer.shutdown before) in
     McpServer.scheduled after = McpServer.scheduled before /\
     List.length (Host.sockets (McpServer.host after))
     = List.length (Host.sockets (McpServer.host before))).
Proof.
  split.
  - intros pre post before after.
    assert (Hinv : Userscript.one_timer before).
    { apply run_one_timer, initial_one_timer. }
    destruct (disconnect_closed_manually before Hinv) as (Hc & Hs & Hl).
    destruct (host_run_closed_manually post _ Hc) as ([_ Hp] & Hs' & Hl').
    fold after in Hp, Hs', Hl'. repeat split; congruence.
  - intros pre post before after.
    destruct (shutdown_footprint before) as (Hs & Ht & Hl).
    destruct (run_shutting_down post _ Hs) as [Ht' Hl'].
    fold after in Ht', Hl'. split; congruence.
Qed.

(** C7, the claim as written fails on the producer: [connect()] clears the
    manual-close flag, so a close event that comes after a [disconnect()]
    and a later [connect()] schedules a reconnect. *)
Lemma close_after_reconnect_schedules :
  let pre := [Userscript.FromUser (Userscript.Connect true);
              Userscript.FromHost (Userscript.Open 0);
              Userscript.FromUser Userscript.Disconnect] in
  let later := [Userscript.FromUser (Userscript.Connect true);
                Userscript.FromHost (Userscript.Open 1)] in
  let t := Userscript.run (pre ++ later) Userscript.initial in
  Userscript.isManualClose (Userscript.run pre Userscript.initial) = true /\
  Userscript.scheduled t = [] /\
  Userscript.scheduled (Userscript.step t (Userscript.FromHost (Userscript.Closed 1)))
  = [3000%Z].
Proof. vm_compute. repeat split. Qed.

(** C8, as the code has it.  Producer: [connect()] in phase CONNECTING or
    CONNECTED returns the state as it is, whether or not the constructor
    would throw.  Listener: [connectToBridge()] does nothing while shutting
    down; otherwise, in any phase, it constructs a new socket and stores it
    in [wsConnection]. *)
Theorem connect_reentry :
  (forall (t : Userscript.Transport) (constructed : bool),
     Userscript.connectionState t = Userscript.CONNECTING \/
     Userscript.connectionState t = Userscript.CONNECTED ->
     Userscript.connect constructed t = t) /\
  (forall m : McpServer.Mcp,
     McpServer.isShuttingDown m = true -> McpServer.connectToBridge m = m) /\
  (forall m : McpServer.Mcp,
     McpServer.isShuttingDown m = false ->
     McpServer.wsConnection (McpServer.connectToBridge m)
     = Some (List.length (Host.sockets (McpServer.host m))) /\
     Host.sockets (McpServer.host (McpServer.connectToBridge m))
     = Host.sockets (McpServer.host m) ++ [Host.CONNECTING]).
Proof.
  split; [|split].
  - intros t c [H|H]; unfold Userscript.connect; rewrite H; reflexivity.
  - intros m H. unfold McpServer.connectToBridge. now rewrite H.
  - intros m H. unfold McpServer.connectToBridge. rewrite H. split; reflexivity.
Qed.

Lemma connect_reentry_witness :
  let t := Userscript.connect true Userscript.initial in
  let m := McpServer.shutdown (McpServer.connectToBridge McpServer.initial) in
  let m' := McpServer.connectToBridge McpServer.initial in
  Userscript.connect true t = t /\
  McpServer.connectToBridge m = m /\
  McpServer.wsConnection (McpServer.connectToBridge m') = Some 1.
Proof.
  intros t m m'.
  destruct connect_reentry as (Hp & Hs & Hn).
  split; [|split].
  - apply (Hp t true). left. reflexivity.
  - apply (Hs m). reflexivity.
  - exact (proj1 (Hn m' eq_refl)).
Defined.

(** C8, the claim as written fails on the listener: called while the
    endpoint is connecting, or connected, [connectToBridge()] changes the
    state and opens a second socket. *)
Lemma connectToBridge_reentry_opens_socket :
  let m1 := McpServer.connectToBridge McpServer.initial in
  let m2 := McpServer.step m1 (McpServer.Open 0) in
  McpServer.phase m1 = McpServer.CONNECTING /\
  McpServer.connectToBridge m1 <> m1 /\
  Host.sockets (McpServer.host (McpServer.connectToBridge m1))
  = [Host.CONNECTING; Host.CONNECTING] /\
  McpServer.phase m2 = McpServer.CONNECTED /\
  McpServer.connectToBridge m2 <> m2 /\
  Host.sockets (McpServer.host (McpServer.connectToBridge m2))
  = [Host.OPEN; Host.CONNECTING].
Proof.
  vm_compute. repeat split; discriminate.
Qed.

(** ** Reconnect backoff *)

(** C6, as the code has it.
    Listener: after [n] failures in a row the delays scheduled are
    [min (d * 2^k) max] for [k = 0 .. n-1], with [d] the initial and [max]
    the maximum delay; once an attempt then succeeds, the delay variable is
    [d] again and the next failure schedules [d].
    Producer: [scheduleReconnect()] schedules [RETRY_INTERVAL * 2^a], with
    [a] the attempts counted so far, without an upper bound on the delay,
    and counts one more attempt; from [MAX_RETRIES] attempts on it
    schedules nothing.  Attempts that fail by the constructor throwing
    thus schedule [RETRY_INTERVAL * 2^k] for [k = 0 .. min n MAX_RETRIES - 1].
    The ['open'] listener resets the count to 0. *)
Theorem reconnect_backoff_schedule :
  (forall n : nat,
     McpServer.scheduled
       (McpServer.failures n (McpServer.connectToBridge McpServer.initial))
     = map (fun k => Z.min (McpServer.INITIAL_RECONNECT_DELAY * 2 ^ Z.of_nat k)
                       McpServer.MAX_RECONNECT_DELAY) (seq 0 n)) /\
  (forall n : nat,
     let m := McpServer.failures n (McpServer.connectToBridge McpServer.initial) in
     McpServer.reconnectDelay (McpServer.succeed m) = McpServer.INITIAL_RECONNECT_DELAY /\
     McpServer.scheduled (McpServer.fail_and_retry (McpServer.succeed m))
     = McpServer.scheduled m ++ [McpServer.INITIAL_RECONNECT_DELAY]) /\
  (forall t : Userscript.Transport,
     Userscript.scheduled (Userscript.scheduleReconnect t)
     = (if Nat.leb Userscript.MAX_RETRIES (Userscript.reconnectAttempts t)
        then Userscript.scheduled t
        else Userscript.scheduled t
             ++ [(Userscript.RETRY_INTERVAL * 2 ^ Z.of_nat (Userscript.reconnectAttempts t))%Z]) /\
     Userscript.reconnectAttempts (Userscript.scheduleReconnect t)
     = (if Nat.leb Userscript.MAX_RETRIES (Userscript.reconnectAttempts t)
        then Userscript.reconnectAttempts t
        else S (Userscript.reconnectAttempts t))) /\
  (forall n : nat,
     Userscript.scheduled (Userscript.after_throwing_failures n)
     = map (fun k => (Userscript.RETRY_INTERVAL * 2 ^ Z.of_nat k)%Z)
         (seq 0 (Nat.min n Userscript.MAX_RETRIES))) /\
  (forall t : Userscript.Transport,
     Userscript.reconnectAttempts (Userscript.on_open t) = 0).
Proof.
  assert (Hstart : McpServer.attempting
                     (Z.min (McpServer.INITIAL_RECONNECT_DELAY * 2 ^ Z.of_nat 0)
                        McpServer.MAX_RECONNECT_DELAY)
                     (McpServer.connectToBridge McpServer.initial)).
  { exact first_attempt_attempting. }
  split; [|split; [|split; [|split]]].
  - intros n. destruct (failures_schedule n 0 _ Hstart) as [_ H].
    rewrite H. reflexivity.
  - intros n m. destruct (failures_schedule n 0 _ Hstart) as [Hm _]. fold m in Hm.
    destruct (succeed_attempting _ m Hm) as [Hok Hsame].
    split; [apply Hok|].
    destruct (fail_and_retry_attempting _ _ Hok) as [_ H].
    rewrite H, Hsame. reflexivity.
  - intros t. unfold Userscript.scheduleReconnect, Userscript.scheduled.
    destruct (Nat.leb Userscript.MAX_RETRIES (Userscript.reconnectAttempts t));
      [split; reflexivity|].
    destruct (Userscript.reconnectTimer t); split; reflexivity.
  - exact throwing_failures_schedule.
  - intros t. reflexivity.
Qed.

(** C6, the claim as written fails on the producer.  Two attempts in a row
    that fail with a close event schedule one delay, not two; six attempts
    in a row that fail in the constructor schedule five delays, the last
    of them 48000 ms, and no sixth.  No choice of a maximum delay makes
    either run the sequence [d, 2d, 4d, ...] cut off at that maximum. *)
Lemma producer_backoff_stops :
  Userscript.scheduled (Userscript.after_closing_failures 2) = [3000%Z] /\
  Userscript.scheduled (Userscript.after_throwing_failures 6)
  = [3000; 6000; 12000; 24000; 48000]%Z /\
  ~ (exists cap : Z, forall n : nat,
       Userscript.scheduled (Userscript.after_closing_failures n)
       = map (fun k => Z.min (Userscript.RETRY_INTERVAL * 2 ^ Z.of_nat k) cap) (seq 0 n)) /\
  ~ (exists cap : Z, forall n : nat,
       Userscript.scheduled (Userscript.after_throwing_failures n)
       = map (fun k => Z.min (Userscript.RETRY_INTERVAL * 2 ^ Z.of_nat k) cap) (seq 0 n)).
Proof.
  split; [reflexivity|]. split; [reflexivity|]. split.
  - intros [cap H]. specialize (H 2%nat).
    apply (f_equal (@List.length Z)) in H. discriminate H.
  - intros [cap H]. specialize (H 6%nat).
    apply (f_equal (@List.length Z)) in H. discriminate H.
Qed.

(** * Further properties of the relay *)

Section TableMore.
Variables K V : Type.
Variable eqb : K -> K -> bool.
Hypothesis eqb_eq : forall a b, eqb a b = true <-> a = b.

Lemma keys_set_present :
  forall (k : K) (v v0 : V) m,
    JsMap.get eqb k m = Some v0 ->
    JsMap.keys (JsMap.set eqb k v m) = JsMap.keys m.
Proof.
  intros k v v0 m. induction m as [|[k1 v1] m IH]; simpl; [discriminate|].
  destruct (eqb k1 k) eqn:E; simpl.
  - intros _. apply eqb_eq in E. now subst.
  - intros H. now rewrite IH.
Qed.

Lemma get_delete_other :
  forall (k k' : K) (m : list (K * V)),
    k' <> k ->
    JsMap.get eqb k' (JsMap.delete eqb k m) = JsMap.get eqb k' m.
Proof.
  intros k k' m Hne. induction m as [|[k1 v1] m IH]; simpl; [reflexivity|].
  destruct (eqb k1 k) eqn:E; simpl.
  - apply eqb_eq in E. subst k1.
    rewrite (eqb_neq_k K eqb eqb_eq k k'); [reflexivity | congruence].
  - destruct (eqb k1 k'); [reflexivity | exact IH].
Qed.

Lemma size_delete_le :
  forall (k : K) (m : list (K * V)),
    JsMap.size (JsMap.delete eqb k m) <= JsMap.size m.
Proof.
  intros k m. unfold JsMap.size. induction m as [|[k1 v1] m IH]; simpl; [lia|].
  destruct (eqb k1 k); simpl; lia.
Qed.

Lemma size_delete_ge :
  forall (k : K) (m : list (K * V)),
    JsMap.size m <= S (JsMap.size (JsMap.delete eqb k m)).
Proof.
  intros k m. unfold JsMap.size. induction m as [|[k1 v1] m IH]; simpl; [lia|].
  destruct (eqb k1 k); simpl; lia.
Qed.

End TableMore.

Section RegistryMore.
Import Bridge.

(** X1.  A heartbeat frame for [id], from whichever connection, changes
    nothing but the [lastHeartbeat] of the record stored under [id]: the
    ids registered and their order, every other record, the connections'
    variables and the output stay as they are; for an id that is not
    registered the relay is left untouched. *)
Theorem heartbeat_touches_one_timestamp :
  forall (id : JsId) (now : Z) (st : Relay),
    JsMap.keys (subscribers (on_heartbeat id now st)) = JsMap.keys (subscribers st) /\
    closures (on_heartbeat id now st) = closures st /\
    written (on_heartbeat id now st) = written st /\
    (forall id', id' <> id ->
       JsMap.get id_eqb id' (subscribers (on_heartbeat id now st))
       = JsMap.get id_eqb id' (subscribers st)) /\
    match JsMap.get id_eqb id (subscribers st) with
    | Some c =>
        JsMap.get id_eqb id (subscribers (on_heartbeat id now st))
        = Some (mkClient (ws c) (projectPath c) (projectName c) (tty c) (pid c) now)
    | None => on_heartbeat id now st = st
    end.
Proof.
  intros id now st. unfold on_heartbeat.
  destruct (JsMap.get id_eqb id (subscribers st)) as [c|] eqn:G; simpl.
  - split; [eapply keys_set_present; [apply id_eqb_eq | exact G]|].
    split; [reflexivity|]. split; [reflexivity|]. split.
    + intros id' Hne. rewrite get_set by apply id_eqb_eq.
      rewrite (eqb_neq_k _ id_eqb id_eqb_eq); [reflexivity | congruence].
    + apply get_set_same, id_eqb_eq.
  - repeat split.
Qed.

Lemma heartbeat_touches_one_timestamp_witness :
  let c1 := mkRegister (IdStr "c1") (Some "/work/app"%string) (Some "app"%string) None None in
  let c2 := mkRegister (IdStr "c2") (Some "/work/lib"%string) (Some "lib"%string) None None in
  let st := run_ops [Register 1 c1 1000; Register 2 c2 1500] initial in
  JsMap.get id_eqb (IdStr "c2") (subscribers (on_heartbeat (IdStr "c1") 9000 st))
  = Some (record_of 2 c2 1500).
Proof.
  intros c1 c2 st.
  destruct (heartbeat_touches_one_timestamp (IdStr "c1") 9000%Z st) as (_ & _ & _ & H & _).
  rewrite (H (IdStr "c2")); [reflexivity | discriminate].
Defined.

Lemma local_after_register :
  forall w p now st, local_clientId w (on_register w p now st) = reg_clientId p.
Proof.
  intros. unfold on_register, write, local_clientId. simpl.
  rewrite get_set_same by apply Nat.eqb_eq. reflexivity.
Qed.

(** X2.  A connection registers under a truthy [clientId] and then
    closes: its record is gone, and the records of all other ids are the
    ones that were there before the register. *)
Theorem close_removes_own_registration :
  forall (ops : list Op) (w : WsId) (p : RegisterPayload) (now : Z),
    id_truthy (reg_clientId p) = true ->
    let st := run_ops ops initial in
    let st' := on_close w (on_register w p now st) in
    JsMap.get id_eqb (reg_clientId p) (subscribers st') = None /\
    (forall id, id <> reg_clientId p ->
       JsMap.get id_eqb id (subscribers st') = JsMap.get id_eqb id (subscribers st)).
Proof.
  intros ops w p now Htruthy st st'.
  assert (Hnd : NoDup (JsMap.keys (subscribers st))).
  { apply run_ops_NoDup. constructor. }
  assert (Hsubs : subscribers st'
                  = JsMap.delete id_eqb (reg_clientId p)
                      (JsMap.set id_eqb (reg_clientId p) (record_of w p now) (subscribers st))).
  { unfold st', on_close. rewrite local_after_register, Htruthy.
    unfold JsMap.has. rewrite on_register_subscribers.
    rewrite get_set_same by apply id_eqb_eq. reflexivity. }
  rewrite Hsubs. split.
  - apply get_delete_same; [apply id_eqb_eq|]. now apply set_NoDup; [apply id_eqb_eq|].
  - intros id Hne. rewrite get_delete_other by (apply id_eqb_eq || exact Hne).
    rewrite get_set by apply id_eqb_eq.
    rewrite (eqb_neq_k _ id_eqb id_eqb_eq); [reflexivity | congruence].
Qed.

Lemma close_removes_own_registration_witness :
  let c1 := mkRegister (IdStr "c1") (Some "/work/app"%string) (Some "app"%string) None None in
  let c2 := mkRegister (IdStr "c2") (Some "/work/lib"%string) (Some "lib"%string) None None in
  let st := run_ops [Register 1 c1 1000] initial in
  JsMap.get id_eqb (IdStr "c2") (subscribers (on_close 2 (on_register 2 c2 1500 st))) = None.
Proof.
  intros c1 c2 st.
  exact (proj1 (close_removes_own_registration [Register 1 c1 1000%Z] 2 c2 1500%Z eq_refl)).
Defined.

(** X3.  A register frame whose [clientId] is missing, [null] or the
    empty string is stored like any other, but the close handler of its
    connection does not remove it: the relay after the close is the relay
    before it, with the record still registered. *)
Theorem falsy_clientId_outlives_its_connection :
  forall (st : Relay) (w : WsId) (p : RegisterPayload) (now : Z),
    id_truthy (reg_clientId p) = false ->
    on_close w (on_register w p now st) = on_register w p now st /\
    JsMap.get id_eqb (reg_clientId p) (subscribers (on_close w (on_register w p now st)))
    = Some (record_of w p now).
Proof.
  intros st w p now Hfalsy.
  assert (E : on_close w (on_register w p now st) = on_register w p now st).
  { unfold on_close. rewrite local_after_register, Hfalsy. reflexivity. }
  split; [exact E|]. rewrite E, on_register_subscribers.
  apply get_set_same, id_eqb_eq.
Qed.

Lemma falsy_clientId_outlives_its_connection_witness :
  let anonymous := mkRegister IdUndefined (Some "/work/app"%string) (Some "app"%string) None None in
  JsMap.size (subscribers (on_close 5 (on_register 5 anonymous 1000 initial))) = 1.
Proof.
  intros anonymous.
  rewrite (proj1 (falsy_clientId_outlives_its_connection initial 5 anonymous 1000%Z eq_refl)).
  reflexivity.
Defined.

(** X4.  A connection that registers twice under two different ids
    leaves its first record behind: the close handler removes only the
    record of the id registered last. *)
Theorem second_id_orphans_the_first :
  forall (st : Relay) (w : WsId) (p1 p2 : RegisterPayload) (t1 t2 : Z),
    reg_clientId p1 <> reg_clientId p2 ->
    let st' := on_close w (on_register w p2 t2 (on_register w p1 t1 st)) in
    JsMap.get id_eqb (reg_clientId p1) (subscribers st') = Some (record_of w p1 t1) /\
    ws (record_of w p1 t1) = w.
Proof.
  intros st w p1 p2 t1 t2 Hne st'.
  split; [|reflexivity].
  assert (Hbefore : JsMap.get id_eqb (reg_clientId p1)
                      (subscribers (on_register w p2 t2 (on_register w p1 t1 st)))
                    = Some (record_of w p1 t1)).
  { rewrite !on_register_subscribers. rewrite get_set by apply id_eqb_eq.
    rewrite (eqb_neq_k _ id_eqb id_eqb_eq) by congruence.
    apply get_set_same, id_eqb_eq. }
  unfold st'.
  destruct (on_close_subscribers w (on_register w p2 t2 (on_register w p1 t1 st))) as [E|E];
    rewrite E; [exact Hbefore|].
  rewrite local_after_register.
  rewrite get_delete_other by (apply id_eqb_eq || exact Hne). exact Hbefore.
Qed.

Lemma second_id_orphans_the_first_witness :
  let c1 := mkRegister (IdStr "c1") (Some "/work/app"%string) (Some "app"%string) None None in
  let c2 := mkRegister (IdStr "c2") (Some "/work/app"%string) (Some "app"%string) None None in
  JsMap.keys (subscribers (on_close 1 (on_register 1 c2 20 (on_register 1 c1 10 initial))))
  = [IdStr "c1"] /\
  JsMap.get id_eqb (IdStr "c1")
    (subscribers (on_close 1 (on_register 1 c2 20 (on_register 1 c1 10 initial))))
  = Some (record_of 1 c1 10).
Proof.
  intros c1 c2. split; [reflexivity|].
  apply (second_id_orphans_the_first initial 1 c1 c2 10%Z 20%Z). discriminate.
Defined.

End RegistryMore.

Section RelayTraffic.
Import Bridge.

Lemma on_heartbeat_keys :
  forall id now st,
    JsMap.keys (subscribers (on_heartbeat id now st)) = JsMap.keys (subscribers st).
Proof.
  intros id now st. unfold on_heartbeat.
  destruct (JsMap.get id_eqb id (subscribers st)) as [c|] eqn:G; [|reflexivity].
  simpl. eapply keys_set_present; [apply id_eqb_eq | exact G].
Qed.

Lemma step_registry_bound :
  forall st e st',
    step st e = Some st' ->
    NoDup (JsMap.keys (subscribers st)) ->
    NoDup (JsMap.keys (subscribers st')) /\
    JsMap.size (subscribers st')
    <= JsMap.size (subscribers st) + (if Observe.is_register e then 1 else 0).
Proof.
  intros st e st' Hstep Hnd.
  destruct e as [w|w f now|w]; simpl in Hstep.
  - inversion Hstep; subst. simpl. split; [exact Hnd | lia].
  - destruct f as [|[p|id| |]]; simpl in Hstep; inversion Hstep; subst; clear Hstep;
      cbn [Observe.is_register].
    + simpl. split; [exact Hnd | lia].
    + rewrite on_register_subscribers. split.
      * now apply set_NoDup; [apply id_eqb_eq|].
      * rewrite size_set. destruct (JsMap.has _ _ _); lia.
    + pose proof (on_heartbeat_keys id now st) as Hk.
      split.
      * rewrite Hk. exact Hnd.
      * unfold JsMap.size. rewrite <- (length_map fst), <- (length_map fst (subscribers st)).
        unfold JsMap.keys in Hk. rewrite Hk. lia.
    + split; [exact Hnd | lia].
  - inversion Hstep; subst. simpl.
    destruct (on_close_subscribers w st) as [E|E]; rewrite E.
    + split; [exact Hnd | lia].
    + split; [now apply delete_NoDup|].
      pose proof (size_delete_le _ _ id_eqb (local_clientId w st) (subscribers st)). lia.
Qed.

Lemma run_registry_bound :
  forall evs st st',
    run evs st = Some st' ->
    NoDup (JsMap.keys (subscribers st)) ->
    NoDup (JsMap.keys (subscribers st')) /\
    JsMap.size (subscribers st')
    <= JsMap.size (subscribers st) + Observe.register_frames evs.
Proof.
  induction evs as [|e evs IH]; intros st st' Hrun Hnd; simpl in Hrun.
  - inversion Hrun; subst. split; [exact Hnd|]. unfold Observe.register_frames. simpl. lia.
  - destruct (step st e) as [st1|] eqn:Hs; [|discriminate].
    destruct (step_registry_bound st e st1 Hs Hnd) as [Hnd1 Hsz1].
    destruct (IH st1 st' Hrun Hnd1) as [Hnd' Hsz'].
    split; [exact Hnd'|].
    unfold Observe.register_frames in *. simpl.
    destruct (Observe.is_register e); simpl; lia.
Qed.

(** X5.  Whatever the subscriber connections deliver (connections,
    unparsable frames, registers, heartbeats, other frames, closes), as
    long as no handler throws, no two records share a [clientId] and the
    registry holds at most as many records as register frames were
    received. *)
Theorem registry_bounded_by_register_frames :
  forall (evs : list Event) (st : Relay),
    run evs initial = Some st ->
    NoDup (JsMap.keys (subscribers st)) /\
    JsMap.size (subscribers st) <= Observe.register_frames evs.
Proof.
  intros evs st Hrun.
  destruct (run_registry_bound evs initial st Hrun) as [Hnd Hsz]; [constructor|].
  split; [exact Hnd | exact Hsz].
Qed.

Lemma registry_bounded_by_register_frames_witness :
  let c1 := mkRegister (IdStr "c1") None None None None in
  let evs := [Connection 1; Message 1 (Parsed (JRegister c1)) 10%Z;
              Message 1 (Parsed (JHeartbeat (IdStr "c1"))) 20%Z;
              Connection 2; Message 2 (Parsed (JRegister c1)) 30%Z;
              Message 2 Unparsable 40%Z] in
  exists st,
    run evs initial = Some st /\
    JsMap.size (subscribers st) <= Observe.register_frames evs.
Proof.
  intros c1 evs. eexists. split; [reflexivity|].
  apply (registry_bounded_by_register_frames evs). reflexivity.
Defined.

End RelayTraffic.

Section ArbitrationMore.
Import Bridge.

Lemma focus_scan_In :
  forall title cs c l, focus_scan title cs = Some (c, l) -> In c cs.
Proof.
  intros title cs c l. induction cs as [|c0 cs IH]; simpl; [discriminate|].
  destruct (str_truthy (projectPath c0) && includes title (projectPath c0)).
  - intros H. inversion H; subst. now left.
  - destruct (str_truthy (tty c0) && includes title (tty c0)).
    + intros H. inversion H; subst. now left.
    + intros H. right. now apply IH.
Qed.

Lemma focus_match_In :
  forall w cs c l, focus_match w cs = Some (c, l) -> In c cs.
Proof.
  intros [title|] cs c l; simpl; [|discriminate].
  destruct (str_truthy title); [apply focus_scan_In | discriminate].
Qed.

Lemma heartbeat_match_In :
  forall now cs c, fst (heartbeat_match now cs) = Some c -> In c cs /\ recent now c = true.
Proof.
  intros now cs c. unfold heartbeat_match.
  destruct (filter (recent now) cs) as [|c1 [|c2 rest]] eqn:F; simpl; try discriminate.
  intros H. inversion H; subst.
  apply filter_In. rewrite F. now left.
Qed.

Lemma arbitrated_target_In :
  forall (subs : list (JsId * Client)) (world : World) (c : Client),
    target (decide (selectTargetClient subs) world) = Some c ->
    In c (JsMap.values subs).
Proof.
  intros subs world c H.
  destruct subs as [|[id1 c1] [|e2 rest]].
  - discriminate H.
  - simpl in H. inversion H; subst. now left.
  - assert (Hsize : 2 <= JsMap.size ((id1, c1) :: e2 :: rest)).
    { unfold JsMap.size. simpl. lia. }
    rewrite selectTargetClient_many in H by exact Hsize. unfold decide in H.
    destruct (focus_match (activeWindow world) (JsMap.values ((id1, c1) :: e2 :: rest)))
      as [[c' l]|] eqn:Hf.
    + simpl in H. inversion H; subst. exact (focus_match_In _ _ _ _ Hf).
    + destruct (heartbeat_match (clock world) (JsMap.values ((id1, c1) :: e2 :: rest)))
        as [t ls] eqn:Hh.
      simpl in H. subst t.
      apply (heartbeat_match_In (clock world)). now rewrite Hh.
Qed.

(** X6.  The arbitrator only ever returns a record of the registry it was
    given. *)
Theorem target_is_registered :
  forall (subs : list (JsId * Client)) (world : World) (c : Client),
    target (decide (selectTargetClient subs) world) = Some c ->
    In c (JsMap.values subs).
Proof.
  intros subs world c H.
  apply (arbitrated_target_In subs world). exact H.
Qed.

Lemma target_is_registered_witness :
  let a := mkClient 1 "/work/app" "app" "ttys001" 11 9000 in
  let b := mkClient 2 "/work/lib" "lib" "ttys002" 12 4000 in
  let subs := [(IdStr "a", a); (IdStr "b", b)] in
  let world := mkWorld (Some "vim - /work/lib/main.c"%string) 10000%Z (fun _ => 1%Z) in
  In b (JsMap.values subs).
Proof.
  intros a b subs world.
  apply (target_is_registered subs world b). reflexivity.
Defined.

Lemma focus_scan_skip :
  forall title before c after,
    (forall c', In c' before ->
       (projectPath c' = ""%string \/ includes title (projectPath c') = false) /\
       (tty c' = ""%string \/ includes title (tty c') = false)) ->
    focus_scan title (before ++ c :: after) = focus_scan title (c :: after).
Proof.
  intros title before c after. induction before as [|b before IH]; intros H; [reflexivity|].
  simpl app. cbn [focus_scan].
  destruct (H b (or_introl eq_refl)) as [Hp Ht].
  assert (E1 : str_truthy (projectPath b) && includes title (projectPath b) = false).
  { destruct Hp as [E|E]; rewrite E; [reflexivity | apply andb_false_r]. }
  assert (E2 : str_truthy (tty b) && includes title (tty b) = false).
  { destruct Ht as [E|E]; rewrite E; [reflexivity | apply andb_false_r]. }
  rewrite E1, E2. apply IH. intros c' Hc'. apply H. now right.
Qed.

Lemma str_truthy_nonempty :
  forall s, s <> ""%string -> str_truthy s = true.
Proof. intros [|a s] H; [congruence | reflexivity]. Qed.

(** X7.  With two or more listeners and a non-empty window title, the
    first listener in registration order whose non-empty [projectPath]
    occurs in the title is selected, whatever the heartbeats are; listeners
    registered before it must match neither by path nor by tty. *)
Theorem focus_match_beats_heartbeats :
  forall (subs : list (JsId * Client)) (world : World) (title : string)
         (before after : list Client) (c : Client),
    2 <= JsMap.size subs ->
    activeWindow world = Some title ->
    title <> ""%string ->
    JsMap.values subs = before ++ c :: after ->
    (forall c', In c' before ->
       (projectPath c' = ""%string \/ includes title (projectPath c') = false) /\
       (tty c' = ""%string \/ includes title (tty c') = false)) ->
    projectPath c <> ""%string ->
    includes title (projectPath c) = true ->
    decide (selectTargetClient subs) world
    = mkDecision (Some c) [RouterFocus (projectName c)] true.
Proof.
  intros subs world title before after c Hsize Hw Htitle Hvals Hbefore Hpath Hinc.
  rewrite selectTargetClient_many by exact Hsize. unfold decide.
  rewrite Hw. unfold focus_match. rewrite (str_truthy_nonempty title Htitle).
  rewrite Hvals, (focus_scan_skip title before c after Hbefore).
  cbn [focus_scan]. rewrite (str_truthy_nonempty _ Hpath), Hinc. reflexivity.
Qed.

Lemma focus_match_beats_heartbeats_witness :
  let a := mkClient 1 "/work/app" "app" "ttys001" 11 9900 in
  let b := mkClient 2 "/work/lib" "lib" "ttys002" 12 0 in
  let subs := [(IdStr "a", a); (IdStr "b", b)] in
  let world := mkWorld (Some "vim - /work/lib/main.c"%string) 10000%Z (fun _ => 1%Z) in
  decide (selectTargetClient subs) world = mkDecision (Some b) [RouterFocus "lib"] true.
Proof.
  intros a b subs world.
  apply (focus_match_beats_heartbeats subs world "vim - /work/lib/main.c" [a] [] b).
  - unfold JsMap.size. simpl. lia.
  - reflexivity.
  - discriminate.
  - reflexivity.
  - intros c' [<-|[]]. split; right; reflexivity.
  - discriminate.
  - reflexivity.
Defined.

(** X8.  With two or more listeners and no focus match, the arbitrator
    refuses to choose among two or more fresh heartbeats (conflict line,
    naming them) and refuses when no heartbeat is fresh (timeout line,
    naming every registered listener). *)
Theorem ambiguous_or_stale_is_refused :
  forall (subs : list (JsId * Client)) (world : World),
    2 <= JsMap.size subs ->
    focus_match (activeWindow world) (JsMap.values subs) = None ->
    let fresh := filter (recent (clock world)) (JsMap.values subs) in
    (2 <= List.length fresh ->
       decide (selectTargetClient subs) world
       = mkDecision None [RouterConflict (List.length fresh) (map projectName fresh)] true) /\
    (fresh = [] ->
       decide (selectTargetClient subs) world
       = mkDecision None [RouterTimeout (map projectName (JsMap.values subs))] true).
Proof.
  intros subs world Hsize Hfocus fresh.
  rewrite selectTargetClient_many by exact Hsize. unfold decide.
  rewrite Hfocus. unfold heartbeat_match. fold fresh.
  split.
  - intros Hlen. destruct fresh as [|c1 [|c2 rest]]; simpl in Hlen; try lia. reflexivity.
  - intros Hnil. rewrite Hnil. reflexivity.
Qed.

Lemma ambiguous_or_stale_is_refused_witness :
  let a := mkClient 1 "/work/app" "app" "ttys001" 11 2000 in
  let b := mkClient 2 "/work/lib" "lib" "ttys002" 12 4000 in
  let subs := [(IdStr "a", a); (IdStr "b", b)] in
  let world := mkWorld None 10000%Z (fun _ => 1%Z) in
  decide (selectTargetClient subs) world
  = mkDecision None [RouterTimeout ["app"%string; "lib"%string]] true.
Proof.
  intros a b subs world.
  assert (Hsize : 2 <= JsMap.size subs) by (unfold JsMap.size; simpl; lia).
  exact (proj2 (ambiguous_or_stale_is_refused subs world Hsize eq_refl) eq_refl).
Defined.

Lemma sent_frames_app :
  forall a b, Observe.sent_frames (a ++ b) = Observe.sent_frames a ++ Observe.sent_frames b.
Proof.
  induction a as [|o a IH]; intros b; simpl; [reflexivity|].
  destruct o; simpl; now rewrite IH.
Qed.

Lemma sent_frames_wrote :
  forall ls, Observe.sent_frames (map Wrote ls) = [].
Proof. induction ls as [|l ls IH]; simpl; [reflexivity | exact IH]. Qed.


Lemma dispatch_sent :
  forall (fmt : string -> option string) (st : Relay) (world : World) (f : BrowserFrame)
         (outs : list Output),
    on_browser_message fmt st world f = Some outs ->
    List.length (Observe.sent_frames outs) <= 1 /\
    (forall w x, In (w, x) (Observe.sent_frames outs) ->
       f = BEvent x /\
       exists c, target (decide (selectTargetClient (subscribers st)) world) = Some c /\
                 In c (JsMap.values (subscribers st)) /\
                 ws c = w /\ readyState world w = 1%Z) /\
    (forall data c,
       f = BEvent data ->
       target (decide (selectTargetClient (subscribers st)) world) = Some c ->
       readyState world (ws c) = 1%Z ->
       Observe.sent_frames outs = [(ws c, data)]).
Proof.
  intros fmt st world f outs Hout.
  destruct f as [| |data]; simpl in Hout.
  - inversion Hout; subst. simpl.
    split; [lia|]. split; [intros w x []|]. intros data c H. discriminate H.
  - inversion Hout; subst. simpl.
    split; [lia|]. split; [intros w x []|]. intros data c H. discriminate H.
  - destruct (fmt data) as [m|]; [|discriminate Hout].
    inversion Hout; subst. clear Hout. cbn [Observe.sent_frames].
    rewrite sent_frames_app, sent_frames_wrote. simpl.
    destruct (target (decide (selectTargetClient (subscribers st)) world)) as [c|] eqn:Ht.
    + destruct (Z.eqb (readyState world (ws c)) 1) eqn:Hr; simpl.
      * split; [lia|]. split.
        -- intros w x [H|[]]. inversion H; subst. split; [reflexivity|].
           exists c. repeat split.
           ++ eapply arbitrated_target_In; eauto.
           ++ now apply Z.eqb_eq.
        -- intros d c' Hd Hc' _. inversion Hd; inversion Hc'; subst. reflexivity.
      * split; [lia|]. split; [intros w x []|].
        intros d c' Hd Hc' Hready. inversion Hc'; subst.
        apply Z.eqb_eq in Hready. congruence.
    + simpl. split; [lia|]. split; [intros w x []|]. intros d c' _ H. discriminate H.
Qed.



End ArbitrationMore.

(** * Startup of the relay *)

Section StartupMore.
Import Bridge.

Lemma ports_tried_shape :
  forall port : Z,
    [(port + 0)%Z] = Observe.ports_from port 1 /\
    [(port + 0)%Z; (port + 1)%Z] = Observe.ports_from port 2 /\
    [(port + 0)%Z; (port + 1)%Z; (port + 2)%Z] = Observe.ports_from port 3.
Proof.
  intros port. simpl. rewrite Z.add_0_r.
  replace (port + 1 + 1)%Z with (port + 2)%Z by lia.
  repeat split.
Qed.

(** X10.  [createServer] tries between one and three ports, consecutive
    from the requested one.  If it resolves, the port it resolves with is
    the last one tried, it listens, and every port tried before it was in
    use.  If it rejects, the error is the one the last port tried failed
    with. *)
Theorem createServer_tries_consecutive_ports :
  forall (tryPort : Z -> TryPort) (port : Z),
    let r := createServer tryPort port in
    (exists n, 1 <= n <= 3 /\ snd r = Observe.ports_from port n) /\
    (forall q, fst r = Resolved q ->
       tryPort q = Listening /\
       last (snd r) port = q /\
       forall p, In p (snd r) -> p <> q ->
         exists e, tryPort p = Failing e /\ is_addr_in_use e = true) /\
    (forall e, fst r = Rejected e -> tryPort (last (snd r) port) = Failing e).
Proof.
  intros tryPort port r. unfold r, createServer. clear r.
  destruct (ports_tried_shape port) as (S1 & S2 & S3).
  cbn [createServer_loop app].
  replace (0 + 1)%Z with 1%Z by reflexivity.
  replace (1 + 1)%Z with 2%Z by reflexivity.
  destruct (tryPort (port + 0)%Z) as [|e0] eqn:T0.
  { cbn [fst snd]. split; [exists 1; split; [lia | exact S1]|]. split.
    - intros q Hq. inversion Hq; subst. split; [exact T0|]. split; [reflexivity|].
      intros p [Hp|[]] Hne. congruence.
    - intros e He. discriminate He. }
  destruct (is_addr_in_use e0) eqn:A0.
  2:{ cbn [fst snd]. split; [exists 1; split; [lia | exact S1]|]. split.
      - intros q Hq. discriminate Hq.
      - intros e He. inversion He; subst. exact T0. }
  cbn [createServer_loop app].
  destruct (tryPort (port + 1)%Z) as [|e1] eqn:T1.
  { cbn [fst snd]. split; [exists 2; split; [lia | exact S2]|]. split.
    - intros q Hq. inversion Hq; subst. split; [exact T1|]. split; [reflexivity|].
      intros p [Hp|[Hp|[]]] Hne; [|congruence].
      subst p. exists e0. split; assumption.
    - intros e He. discriminate He. }
  destruct (is_addr_in_use e1) eqn:A1.
  2:{ cbn [fst snd]. split; [exists 2; split; [lia | exact S2]|]. split.
      - intros q Hq. discriminate Hq.
      - intros e He. inversion He; subst. exact T1. }
  cbn [createServer_loop app].
  destruct (tryPort (port + 2)%Z) as [|e2] eqn:T2.
  { cbn [fst snd]. split; [exists 3; split; [lia | exact S3]|]. split.
    - intros q Hq. inversion Hq; subst. split; [exact T2|]. split; [reflexivity|].
      intros p [Hp|[Hp|[Hp|[]]]] Hne; [| |congruence]; subst p.
      + exists e0. split; assumption.
      + exists e1. split; assumption.
    - intros e He. discriminate He. }
  destruct (is_addr_in_use e2) eqn:A2; cbn [fst snd createServer_loop];
    (split; [exists 3; split; [lia | exact S3]|]); split;
    try (intros q Hq; discriminate Hq);
    intros e He; inversion He; subst; exact T2.
Qed.

Lemma createServer_tries_consecutive_ports_witness :
  let second_free := fun p : Z => if (p =? 51766)%Z then Listening else Failing EADDRINUSE in
  second_free 51766%Z = Listening.
Proof.
  intros second_free.
  destruct (createServer_tries_consecutive_ports second_free 51765%Z) as (_ & H & _).
  exact (proj1 (H 51766%Z eq_refl)).
Defined.

(** X11.  An error other than address-in-use is fatal at once: when the
    ports before [port + k] are in use and [port + k] fails with another
    error, no further port is tried, [createServer] rejects with that
    error and the process exits with status 1. *)
Theorem other_error_is_not_retried :
  forall (tryPort : Z -> TryPort) (subscriberServer : bool) (port : Z) (k : nat) (e : Err),
    k <= 2 ->
    (forall j, j < k -> tryPort (port + Z.of_nat j)%Z = Failing EADDRINUSE) ->
    tryPort (port + Z.of_nat k)%Z = Failing e ->
    is_addr_in_use e = false ->
    createServer tryPort port = (Rejected e, Observe.ports_from port (S k)) /\
    main tryPort subscriberServer port = Exited 1.
Proof.
  intros tryPort sub port k e Hk Hbusy Hfail Hother.
  destruct (ports_tried_shape port) as (S1 & S2 & S3).
  assert (E : createServer tryPort port = (Rejected e, Observe.ports_from port (S k))).
  { unfold createServer. cbn [createServer_loop app].
    replace (0 + 1)%Z with 1%Z by reflexivity.
    replace (1 + 1)%Z with 2%Z by reflexivity.
    destruct k as [|[|[|k]]]; [| | |lia].
    - simpl Z.of_nat in Hfail. rewrite Hfail, Hother, S1. reflexivity.
    - pose proof (Hbusy 0 ltac:(lia)) as B0. simpl Z.of_nat in B0, Hfail.
      rewrite B0. cbn [is_addr_in_use EADDRINUSE code String.eqb Ascii.eqb Bool.eqb].
      cbn [createServer_loop app]. rewrite Hfail, Hother, S2. reflexivity.
    - pose proof (Hbusy 0 ltac:(lia)) as B0. pose proof (Hbusy 1 ltac:(lia)) as B1.
      simpl Z.of_nat in B0, B1, Hfail.
      rewrite B0. cbn [is_addr_in_use EADDRINUSE code String.eqb Ascii.eqb Bool.eqb].
      cbn [createServer_loop app]. rewrite B1.
      cbn [is_addr_in_use EADDRINUSE code String.eqb Ascii.eqb Bool.eqb].
      cbn [createServer_loop app]. rewrite Hfail, Hother, S3. reflexivity. }
  split; [exact E|]. unfold main. rewrite E. reflexivity.
Qed.

Lemma other_error_is_not_retried_witness :
  let denied := fun p : Z =>
    if (p =? 80)%Z then Failing EADDRINUSE else Failing (mkErr (Some "EACCES"%string)) in
  createServer denied 80 = (Rejected (mkErr (Some "EACCES"%string)), [80; 81]%Z) /\
  main denied true 80 = Exited 1.
Proof.
  intros denied.
  apply (other_error_is_not_retried denied true 80%Z 1 (mkErr (Some "EACCES"%string))).
  - lia.
  - intros j Hj. assert (j = 0) by lia. subst j. reflexivity.
  - reflexivity.
  - reflexivity.
Defined.

End StartupMore.

Section CommandLine.
Import Startup.
Variable parseInt : string -> JsNumber.

Lemma assign_cases :
  forall value port,
    assign value port = port \/
    (exists z, value = Finite z /\ (0 < z)%Z /\ assign value port = z).
Proof.
  intros [| |z] port; simpl; try (now left).
  destruct (0 <? z)%Z eqn:E; [|now left].
  right. exists z. apply Z.ltb_lt in E. now repeat split.
Qed.

Lemma assign_origin :
  forall s port,
    port_origin parseInt port -> port_origin parseInt (assign (parseInt s) port).
Proof.
  intros s port H.
  destruct (assign_cases (parseInt s) port) as [E|(z & Hz & Hpos & E)]; rewrite E.
  - exact H.
  - split; [exact Hpos|]. right. exists s. exact Hz.
Qed.

Lemma parseArgs_from_origin :
  forall n args port,
    List.length args <= n ->
    port_origin parseInt port -> port_origin parseInt (parseArgs_from parseInt args port).
Proof.
  induction n as [|n IH]; intros args port Hlen H.
  - destruct args; [exact H | simpl in Hlen; lia].
  - destruct args as [|arg rest]; [exact H|]. simpl in Hlen. cbn [parseArgs_from].
    destruct (String.eqb arg "--port").
    + destruct rest as [|value rest']; [exact H|].
      apply IH; [simpl in Hlen; lia | now apply assign_origin].
    + destruct (String.prefix "--port=" arg).
      * apply IH; [lia | now apply assign_origin].
      * apply IH; [lia | exact H].
Qed.

(** X12.  Whatever the command line, the port [parseArgs] returns is
    positive, and it is either the default 51765 or a finite value that
    [Number.parseInt] returned; [NaN], infinities, zero and negative
    values never become the port. *)
Theorem parseArgs_port_is_positive :
  forall argv : list string,
    (0 < parseArgs parseInt argv)%Z /\
    (parseArgs parseInt argv = DEFAULT_PORT \/
     exists s, parseInt s = Finite (parseArgs parseInt argv)).
Proof.
  intros argv. unfold parseArgs.
  apply (parseArgs_from_origin (List.length (skipn 2 argv))); [lia|].
  split; [reflexivity | now left].
Qed.

Lemma slice_from_port_prefix :
  forall v, slice_from 7 (String.append "--port=" v) = v.
Proof. reflexivity. Qed.

Lemma prefix_port_prefix :
  forall v, String.prefix "--port=" (String.append "--port=" v) = true.
Proof.
  intros v. simpl.
  repeat (match goal with
          | |- context [Ascii.ascii_dec ?a ?b] => destruct (Ascii.ascii_dec a b); [|congruence]
          end).
  destruct v; reflexivity.
Qed.

Lemma parseArgs_from_plain :
  forall pre rest port,
    forallb plain pre = true ->
    parseArgs_from parseInt (pre ++ rest) port = parseArgs_from parseInt rest port.
Proof.
  induction pre as [|a pre IH]; intros rest port H; [reflexivity|].
  simpl in H. apply andb_true_iff in H. destruct H as [Ha Hpre].
  unfold plain in Ha. apply andb_true_iff in Ha. destruct Ha as [H1 H2].
  apply negb_true_iff in H1, H2.
  simpl app. cbn [parseArgs_from]. rewrite H1, H2. now apply IH.
Qed.

(** X13.  The two spellings of the option mean the same: after arguments
    that are no port options, [--port v] and [--port=v] leave the same
    port, for every value [v], valid or not, and every rest of the command
    line. *)
Theorem port_option_spellings_agree :
  forall (node script : string) (pre rest : list string) (v : string),
    forallb plain pre = true ->
    parseArgs parseInt (node :: script :: pre ++ "--port"%string :: v :: rest)
    = parseArgs parseInt (node :: script :: pre ++ String.append "--port=" v :: rest).
Proof.
  intros node script pre rest v Hpre. unfold parseArgs. cbn [skipn].
  rewrite !parseArgs_from_plain by exact Hpre.
  cbn [parseArgs_from]. rewrite String.eqb_refl.
  assert (E : String.eqb (String.append "--port=" v) "--port" = false).
  { apply String.eqb_neq. intros H. simpl in H. discriminate H. }
  rewrite E, prefix_port_prefix, slice_from_port_prefix. reflexivity.
Qed.

End CommandLine.

Lemma port_option_spellings_agree_witness :
  let parse := fun s : string =>
    if String.eqb s "8080" then Startup.Finite 8080 else Startup.NaN in
  Startup.parseArgs parse ["node"; "server.js"; "--verbose"; "--port=8080"]%string = 8080%Z.
Proof.
  intros parse.
  exact (eq_trans
           (eq_sym (port_option_spellings_agree parse "node" "server.js"
                      ["--verbose"%string] [] "8080" eq_refl))
           eq_refl).
Defined.

(** * Table cells *)

Section Cells.
Import Markdown.

Lemma string_pair_ind :
  forall P : string -> Prop,
    P EmptyString ->
    (forall c, P (String c EmptyString)) ->
    (forall c c' s, P s -> P (String c' s) -> P (String c (String c' s))) ->
    forall s, P s.
Proof.
  intros P H0 H1 H2 s.
  assert (H : P s /\ forall c, P (String c s)).
  { induction s as [|a s [IHs IHc]]; [split; [exact H0 | exact H1]|].
    split; [apply IHc|]. intros c. apply H2; [exact IHs | apply IHc]. }
  exact (proj1 H).
Qed.

Lemma escape_pipes_guarded :
  forall s b, pipes_guarded b (escape_pipes s) = true.
Proof.
  induction s as [|c s IH]; intros b; simpl; [reflexivity|].
  destruct (Ascii.eqb c PIPE) eqn:E.
  - cbn [pipes_guarded].
    change (Ascii.eqb BACKSLASH PIPE) with false.
    change (Ascii.eqb BACKSLASH BACKSLASH) with true.
    change (Ascii.eqb PIPE PIPE) with true. cbn iota. simpl. apply IH.
  - cbn [pipes_guarded]. rewrite E. apply IH.
Qed.

Lemma guarded_br :
  forall b s, pipes_guarded b (String.append "<br>" s) = pipes_guarded false s.
Proof. reflexivity. Qed.

Lemma occurs_br :
  forall s, occurs LF (String.append "<br>" s) = occurs LF s.
Proof. reflexivity. Qed.

Lemma break_lines_cons :
  forall c s,
    break_lines (String c s)
    = if Ascii.eqb c LF then String.append "<br>" (break_lines s)
      else if Ascii.eqb c CR then
        match s with
        | String c' s'' =>
            if Ascii.eqb c' LF then String.append "<br>" (break_lines s'')
            else String c (break_lines s)
        | EmptyString => String c EmptyString
        end
      else String c (break_lines s).
Proof. reflexivity. Qed.

Lemma pipes_guarded_cons :
  forall b c s,
    pipes_guarded b (String c s)
    = if Ascii.eqb c PIPE then b && pipes_guarded false s
      else pipes_guarded (Ascii.eqb c BACKSLASH) s.
Proof. reflexivity. Qed.

Lemma occurs_cons :
  forall a c s, occurs a (String c s) = Ascii.eqb c a || occurs a s.
Proof. reflexivity. Qed.

Lemma guarded_keep_head :
  forall b c s t,
    (forall b', pipes_guarded b' s = true -> pipes_guarded b' t = true) ->
    pipes_guarded b (String c s) = true -> pipes_guarded b (String c t) = true.
Proof.
  intros b c s t Hst. rewrite !pipes_guarded_cons.
  destruct (Ascii.eqb c PIPE).
  - intros H. apply andb_true_iff in H. destruct H as [Hb H]. rewrite Hb. simpl.
    now apply Hst.
  - apply Hst.
Qed.

Lemma break_lines_guarded :
  forall s b, pipes_guarded b s = true -> pipes_guarded b (break_lines s) = true.
Proof.
  intros s. pattern s. apply string_pair_ind; clear s.
  - intros b H. exact H.
  - intros c b H. rewrite break_lines_cons.
    destruct (Ascii.eqb c LF); [reflexivity|].
    destruct (Ascii.eqb c CR); exact H.
  - intros c c' s IHs IHc b H. rewrite (break_lines_cons c (String c' s)).
    destruct (Ascii.eqb c LF) eqn:EL.
    + apply Ascii.eqb_eq in EL. subst c. rewrite guarded_br.
      apply IHc. exact H.
    + destruct (Ascii.eqb c CR) eqn:EC.
      * destruct (Ascii.eqb c' LF) eqn:EL'.
        -- apply Ascii.eqb_eq in EC, EL'. subst c c'. rewrite guarded_br.
           apply IHs. exact H.
        -- revert H. apply guarded_keep_head. exact IHc.
      * revert H. apply guarded_keep_head. exact IHc.
Qed.

Lemma break_lines_no_LF :
  forall s, occurs LF (break_lines s) = false.
Proof.
  intros s. pattern s. apply string_pair_ind; clear s.
  - reflexivity.
  - intros c. rewrite break_lines_cons.
    destruct (Ascii.eqb c LF) eqn:EL; [reflexivity|].
    destruct (Ascii.eqb c CR); rewrite occurs_cons, EL; reflexivity.
  - intros c c' s IHs IHc. rewrite (break_lines_cons c (String c' s)).
    destruct (Ascii.eqb c LF) eqn:EL.
    + rewrite occurs_br. exact IHc.
    + destruct (Ascii.eqb c CR) eqn:EC.
      * destruct (Ascii.eqb c' LF) eqn:EL'.
        -- rewrite occurs_br. exact IHs.
        -- rewrite occurs_cons, EL. exact IHc.
      * rewrite occurs_cons, EL. exact IHc.
Qed.

Lemma break_lines_clean :
  forall s, occurs LF s = false -> break_lines s = s.
Proof.
  intros s. pattern s. apply string_pair_ind; clear s.
  - reflexivity.
  - intros c H. rewrite occurs_cons in H. apply orb_false_iff in H. destruct H as [Hc _].
    rewrite break_lines_cons, Hc. destruct (Ascii.eqb c CR); reflexivity.
  - intros c c' s IHs IHc H. rewrite occurs_cons in H.
    apply orb_false_iff in H. destruct H as [Hc H].
    pose proof H as H'. rewrite occurs_cons in H'.
    apply orb_false_iff in H'. destruct H' as [Hc' _].
    rewrite (break_lines_cons c (String c' s)), Hc, Hc'.
    destruct (Ascii.eqb c CR); now rewrite (IHc H).
Qed.

Lemma escape_pipes_clean :
  forall s, occurs PIPE s = false -> escape_pipes s = s.
Proof.
  induction s as [|c s IH]; simpl; [reflexivity|].
  intros H. apply orb_false_iff in H. destruct H as [Hc H].
  rewrite Hc. now rewrite IH.
Qed.

Lemma spaces_no_LF :
  forall s, occurs LF (spaces_for_newlines s) = false.
Proof.
  induction s as [|c s IH]; simpl; [reflexivity|].
  destruct (Ascii.eqb c LF) eqn:E; simpl; [exact IH|]. now rewrite E.
Qed.

Lemma spaces_guarded :
  forall s b, pipes_guarded b s = true -> pipes_guarded b (spaces_for_newlines s) = true.
Proof.
  induction s as [|c s IH]; intros b H; simpl; [reflexivity|].
  destruct (Ascii.eqb c LF) eqn:E.
  - apply Ascii.eqb_eq in E. subst c. cbn [pipes_guarded] in H |- *.
    change (Ascii.eqb SPACE PIPE) with false. change (Ascii.eqb SPACE BACKSLASH) with false.
    change (Ascii.eqb LF PIPE) with false in H. change (Ascii.eqb LF BACKSLASH) with false in H.
    cbn iota in H |- *. now apply IH.
  - cbn [pipes_guarded] in H |- *. destruct (Ascii.eqb c PIPE).
    + apply andb_true_iff in H. destruct H as [Hb H]. rewrite Hb. simpl. now apply IH.
    + now apply IH.
Qed.

Lemma spaces_clean :
  forall s, occurs LF s = false -> spaces_for_newlines s = s.
Proof.
  induction s as [|c s IH]; simpl; [reflexivity|].
  intros H. apply orb_false_iff in H. destruct H as [Hc H]. rewrite Hc. now rewrite IH.
Qed.

(** X14.  A cell escaped by [escapeTableCell] of [server.js] contains no
    line feed, and each of its [|] comes right after a backslash; [null]
    and [undefined] give the empty cell, and a text without [|] and
    without line feed is returned as it is. *)
Theorem escapeTableCell_keeps_the_row :
  forall text : option string,
    occurs LF (escapeTableCell text) = false /\
    pipes_guarded false (escapeTableCell text) = true /\
    escapeTableCell None = EmptyString /\
    (forall s, occurs PIPE s = false -> occurs LF s = false ->
       escapeTableCell (Some s) = s).
Proof.
  intros text. split; [|split; [|split]].
  - destruct text as [s|]; [apply break_lines_no_LF | reflexivity].
  - destruct text as [s|]; [|reflexivity].
    apply break_lines_guarded, escape_pipes_guarded.
  - reflexivity.
  - intros s Hp Hl. simpl. rewrite (escape_pipes_clean s Hp). now apply break_lines_clean.
Qed.

Lemma escapeTableCell_keeps_the_row_witness :
  escapeTableCell (Some "display: flex"%string) = "display: flex"%string.
Proof.
  apply (proj2 (proj2 (proj2 (escapeTableCell_keeps_the_row None)))); reflexivity.
Defined.

(** X15.  A cell escaped by [escapeCell] of [mcp-server.mjs] contains no
    line feed, and each of its [|] comes right after a backslash; a falsy
    text gives the empty cell, and a text without [|] and without line
    feed is returned as it is. *)
Theorem escapeCell_keeps_the_row :
  forall text : option string,
    occurs LF (escapeCell text) = false /\
    pipes_guarded false (escapeCell text) = true /\
    escapeCell None = EmptyString /\
    (forall s, occurs PIPE s = false -> occurs LF s = false ->
       escapeCell (Some s) = s).
Proof.
  intros text. unfold escapeCell. split; [|split; [|split]].
  - apply spaces_no_LF.
  - apply spaces_guarded, escape_pipes_guarded.
  - reflexivity.
  - intros s Hp Hl.
    assert (E : str_or (Some s) "" = s) by (destruct s; reflexivity).
    rewrite E, (escape_pipes_clean s Hp). now apply spaces_clean.
Qed.

Lemma escapeCell_keeps_the_row_witness :
  escapeCell (Some "display: flex"%string) = "display: flex"%string.
Proof.
  apply (proj2 (proj2 (proj2 (escapeCell_keeps_the_row None)))); reflexivity.
Defined.

End Cells.

(** * The element store of the listener *)

Section ElementStore.
Import McpTools.

Lemma handleMessage_element_stored :
  forall data now st, latestElement (handleMessage (ElementMessage data) now st) = data /\
                      latestElementTimestamp (handleMessage (ElementMessage data) now st) = Some now.
Proof.
  intros data now st. simpl. destruct (property_readable data); split; reflexivity.
Qed.

(** X16.  After an element frame with truthy data, [get_selected_element]
    returns that data, whatever was stored before: as Markdown when the
    format is ['markdown'], and otherwise, for a missing or any other
    format, as JSON with the time of that frame.  Frames that are not JSON,
    the JSON [null] and frames of another type change no reply. *)
Theorem latest_element_is_returned :
  forall (ms : list (Incoming * string)) (data : JsValue) (now : string)
         (fmt : option string) (c : Call) (later : string),
    truthy data = true ->
    let st := handleMessage (ElementMessage data) now (receive_all ms initial) in
    callTool (mkCall "get_selected_element" fmt) st
    = (if String.eqb (str_or fmt "json") "markdown"
       then MarkdownOf data else JsonOf (Some now) data) /\
    callTool c (handleMessage NotJson later st) = callTool c st /\
    callTool c (handleMessage JsonNull later st) = callTool c st /\
    callTool c (handleMessage OtherMessage later st) = callTool c st.
Proof.
  intros ms data now fmt c later Htruthy st.
  destruct (handleMessage_element_stored data now (receive_all ms initial)) as [Hd Ht].
  fold st in Hd, Ht.
  split; [|repeat split].
  unfold callTool. cbn [tool format]. rewrite String.eqb_refl, Hd, Ht, Htruthy.
  reflexivity.
Qed.

Lemma latest_element_is_returned_witness :
  let first := (ElementMessage (VObject "{tagName:'div'}"), "09:00"%string) in
  callTool (mkCall "get_selected_element" (Some "xml"%string))
    (handleMessage (ElementMessage (VObject "{tagName:'a'}")) "09:05" (receive_all [first] initial))
  = JsonOf (Some "09:05"%string) (VObject "{tagName:'a'}").
Proof.
  intros first.
  exact (proj1 (latest_element_is_returned [first] (VObject "{tagName:'a'}") "09:05"
                  (Some "xml"%string) (mkCall "x" None) "" eq_refl)).
Defined.

(** X17.  An element frame whose data is missing, [null] or another
    falsy value discards the element stored before: the tool then answers
    that no element was selected yet, as it does before any frame.  A call
    of any other tool is answered with an error and changes nothing. *)
Theorem falsy_element_clears_the_store :
  forall (st : Store) (data : JsValue) (now : string) (fmt : option string) (name : string),
    truthy data = false ->
    callTool (mkCall "get_selected_element" fmt) (handleMessage (ElementMessage data) now st)
    = NoElementYet /\
    callTool (mkCall "get_selected_element" fmt) initial = NoElementYet /\
    (String.eqb name "get_selected_element" = false ->
     callTool (mkCall name fmt) st = UnknownTool name /\
     isError (callTool (mkCall name fmt) st) = true).
Proof.
  intros st data now fmt name Hfalsy.
  destruct (handleMessage_element_stored data now st) as [Hd _].
  split; [|split].
  - unfold callTool. cbn [tool format]. rewrite String.eqb_refl, Hd, Hfalsy. reflexivity.
  - reflexivity.
  - intros Hname. unfold callTool. cbn [tool]. rewrite Hname. split; reflexivity.
Qed.

Lemma falsy_element_clears_the_store_witness :
  let st := handleMessage (ElementMessage (VObject "{tagName:'div'}")) "09:00" initial in
  callTool (mkCall "get_selected_element" None) st
  = JsonOf (Some "09:00"%string) (VObject "{tagName:'div'}") /\
  callTool (mkCall "get_selected_element" None) (handleMessage (ElementMessage VNull) "09:05" st)
  = NoElementYet.
Proof.
  intros st. split; [reflexivity|].
  exact (proj1 (falsy_element_clears_the_store st VNull "09:05" None "other" eq_refl)).
Defined.

End ElementStore.

(** * Further properties of the producer endpoint *)

Section ProducerMore.
Import Userscript.

Lemma scheduled_cleared :
  forall t,
    Host.timeouts (match reconnectTimer t with
                   | Some h => Host.clearTimeout h (host t)
                   | None => host t
                   end) = scheduled t.
Proof. intros t. unfold scheduled. destruct (reconnectTimer t); reflexivity. Qed.

Lemma scheduleReconnect_bounded :
  forall t, Observe.producer_bounded t -> Observe.producer_bounded (scheduleReconnect t).
Proof.
  intros t [Hle Hall]. unfold scheduleReconnect.
  destruct (Nat.leb MAX_RETRIES (reconnectAttempts t)) eqn:E; [now split|].
  apply Nat.leb_gt in E.
  unfold Observe.producer_bounded, scheduled. simpl. rewrite scheduled_cleared.
  split; [lia|]. apply Forall_app. split; [exact Hall|].
  constructor; [|constructor]. exists (reconnectAttempts t). now split.
Qed.

Lemma connect_bounded :
  forall c t, Observe.producer_bounded t -> Observe.producer_bounded (connect c t).
Proof.
  intros c t H. unfold connect.
  destruct (connectionState t); try exact H.
  destruct c; [exact H|]. apply scheduleReconnect_bounded. exact H.
Qed.

Lemma step_bounded :
  forall t e, Observe.producer_bounded t -> Observe.producer_bounded (step t e).
Proof.
  intros t [e|[c|]] H; simpl.
  - destruct e as [w|w|w|w|h c]; simpl.
    + destruct (Host.exists_socket w (host t)); [|exact H].
      destruct H as [_ Hall]. unfold Observe.producer_bounded, scheduled in *. simpl.
      split; [unfold MAX_RETRIES; lia|].
      destruct (reconnectTimer t); exact Hall.
    + destruct (Host.exists_socket w (host t)); [|exact H].
      unfold on_close. simpl.
      destruct (negb (isManualClose t) && negb (isReconnecting t));
        [apply scheduleReconnect_bounded|]; exact H.
    + destruct (Host.exists_socket w (host t)); [|exact H].
      unfold on_error. destruct (ws t); [|exact H].
      destruct H as [Hle Hall]. unfold Observe.producer_bounded, scheduled in *. simpl.
      rewrite close_timeouts. now split.
    + exact H.
    + destruct (Host.armed h (host t)); [|exact H].
      apply connect_bounded. exact H.
  - now apply connect_bounded.
  - destruct H as [Hle Hall]. unfold Observe.producer_bounded, scheduled in *. simpl.
    split; [exact Hle|].
    destruct (ws t); [rewrite close_timeouts|]; destruct (reconnectTimer t); exact Hall.
Qed.

(** X18.  In every run of the producer endpoint the retry counter never
    exceeds [MAX_RETRIES], and every reconnect delay ever scheduled is
    [RETRY_INTERVAL * 2^k] for some [k < MAX_RETRIES], hence between 3000
    and 48000 ms. *)
Theorem producer_retries_are_bounded :
  forall evs : list Event,
    let t := run evs initial in
    reconnectAttempts t <= MAX_RETRIES /\
    Forall Observe.producer_delay (scheduled t) /\
    Forall (fun d => 3000 <= d <= 48000)%Z (scheduled t).
Proof.
  intros evs t.
  assert (H : Observe.producer_bounded t).
  { unfold t, run. generalize initial,
      (conj (Nat.le_0_l MAX_RETRIES) (Forall_nil Observe.producer_delay)
       : Observe.producer_bounded initial).
    induction evs as [|e evs IH]; intros t0 H0; simpl; [exact H0|].
    apply IH. now apply step_bounded. }
  destruct H as [Hle Hall]. split; [exact Hle|]. split; [exact Hall|].
  eapply Forall_impl; [|exact Hall].
  intros d (k & Hk & ->). unfold MAX_RETRIES in Hk. unfold RETRY_INTERVAL.
  destruct k as [|[|[|[|[|k]]]]]; simpl; lia.
Qed.

Lemma length_filter_le :
  forall (A : Type) (f : A -> bool) (l : list A), List.length (filter f l) <= List.length l.
Proof.
  intros A f l. induction l as [|a l IH]; simpl; [lia|]. destruct (f a); simpl; lia.
Qed.

Lemma scheduleReconnect_single :
  forall t, Observe.single_timer t -> Observe.single_timer (scheduleReconnect t).
Proof.
  intros t [Hone Hlen]. split; [now apply scheduleReconnect_one_timer|].
  unfold scheduleReconnect.
  destruct (Nat.leb MAX_RETRIES (reconnectAttempts t)); [exact Hlen|].
  pose proof (cleared_pending t Hone) as Hc.
  destruct (match reconnectTimer t with
            | Some h => Host.clearTimeout h (host t)
            | None => host t
            end) as [socks touts pend].
  simpl in Hc. subst pend. simpl. lia.
Qed.

Lemma connect_single :
  forall c t, Observe.single_timer t -> Observe.single_timer (connect c t).
Proof.
  intros c t H. unfold connect.
  destruct (connectionState t); try exact H.
  destruct c; [exact H|]. apply scheduleReconnect_single. exact H.
Qed.

Lemma step_single :
  forall t e, Observe.single_timer t -> Observe.single_timer (step t e).
Proof.
  intros t e [Hone Hlen].
  split; [now apply step_one_timer|].
  destruct e as [e|[c|]]; cbn [step].
  - destruct e as [w|w|w|w|h c]; simpl.
    + destruct (Host.exists_socket w (host t)); [|exact Hlen].
      pose proof (cleared_pending (with_host (Host.set_readyState w Host.OPEN (host t)) t) Hone)
        as Hc.
      unfold on_open, resetReconnect. simpl in Hc |- *. rewrite Hc. simpl. lia.
    + destruct (Host.exists_socket w (host t)); [|exact Hlen].
      unfold on_close. simpl.
      destruct (negb (isManualClose t) && negb (isReconnecting t)); [|exact Hlen].
      apply scheduleReconnect_single. split; [exact Hone | exact Hlen].
    + destruct (Host.exists_socket w (host t)); [|exact Hlen].
      unfold on_error. destruct (ws t); [|exact Hlen].
      simpl. rewrite close_pending. exact Hlen.
    + exact Hlen.
    + destruct (Host.armed h (host t)) eqn:Harmed; [|exact Hlen].
      apply connect_single. split.
      * apply one_timer_nil. simpl. now apply (fired_pending t h).
      * simpl. rewrite length_filter_le. exact Hlen.
  - apply connect_single. now split.
  - rewrite (disconnect_pending t Hone). simpl. lia.
Qed.

(** X19.  In every run of the producer endpoint at most one reconnect
    timer is armed at any time, and it is the one [reconnectTimer] refers
    to. *)
Theorem producer_arms_one_timer :
  forall evs : list Event,
    let t := run evs initial in
    List.length (Host.pending (host t)) <= 1 /\
    (forall h, In h (Host.pending (host t)) -> reconnectTimer t = Some h).
Proof.
  intros evs t.
  assert (H : Observe.single_timer t).
  { unfold t, run.
    assert (H0 : Observe.single_timer initial).
    { split; [exact initial_one_timer | simpl; lia]. }
    revert H0. generalize initial.
    induction evs as [|e evs IH]; intros t0 H0; simpl; [exact H0|].
    apply IH. now apply step_single. }
  destruct H as [Hone Hlen]. split; [exact Hlen | exact Hone].
Qed.

Lemma producer_arms_one_timer_witness :
  let evs := [FromUser (Connect true); FromHost (Closed 0)] in
  reconnectTimer (run evs initial) = Some 0.
Proof.
  intros evs.
  apply (proj2 (producer_arms_one_timer evs) 0). simpl. now left.
Defined.

End ProducerMore.

Section SendingMore.
Import Userscript.

Lemma host_step_keeps_no_socket :
  forall t e,
    closed_manually t -> ws t = None -> ws (host_step t e) = None.
Proof.
  intros t e [Hman Hpend] Hws.
  destruct e as [w|w|w|w|h c]; simpl.
  - destruct (Host.exists_socket w (host t)); [|exact Hws]. exact Hws.
  - destruct (Host.exists_socket w (host t)); [|exact Hws].
    unfold on_close. simpl. rewrite Hman. reflexivity.
  - destruct (Host.exists_socket w (host t)); [|exact Hws].
    unfold on_error. rewrite Hws. exact Hws.
  - exact Hws.
  - unfold Host.armed. rewrite Hpend. exact Hws.
Qed.

Lemma host_run_keeps_no_socket :
  forall post t,
    closed_manually t -> ws t = None -> ws (run (map FromHost post) t) = None.
Proof.
  induction post as [|e post IH]; intros t Hc Hws; simpl; [exact Hws|].
  apply IH.
  - exact (proj1 (host_step_closed_manually t e Hc)).
  - now apply host_step_keeps_no_socket.
Qed.

(** X20.  After [disconnect()], whatever happened before and whatever the
    host delivers afterwards, [Transport.ws] stays [null], so
    [sendElement] and [sendPing] send nothing until [connect()] is called
    again. *)
Theorem nothing_is_sent_after_disconnect :
  forall (pre : list Event) (post : list HostEvent)
         (elementData : option string) (now : string),
    let t := run (map FromHost post) (disconnect (run pre initial)) in
    ws t = None /\
    Sending.sendElement elementData now t = None /\
    Sending.sendPing t = None.
Proof.
  intros pre post elementData now t.
  assert (Hws : ws t = None).
  { apply host_run_keeps_no_socket; [|reflexivity].
    apply disconnect_closed_manually, run_one_timer, initial_one_timer. }
  assert (Hs : Sending.sendable t = None).
  { unfold Sending.sendable. rewrite Hws. now destruct (connectionState t). }
  split; [exact Hws|].
  unfold Sending.sendElement, Sending.sendPing. rewrite Hs. split; reflexivity.
Qed.

Lemma scheduleReconnect_keeps_sockets :
  forall t,
    ws (scheduleReconnect t) = ws t /\
    Host.sockets (host (scheduleReconnect t)) = Host.sockets (host t).
Proof.
  intros t. unfold scheduleReconnect.
  destruct (Nat.leb MAX_RETRIES (reconnectAttempts t)); [now split|].
  destruct (reconnectTimer t); simpl; now split.
Qed.

Lemma on_close_clears_ws :
  forall t,
    ws (on_close t) = None /\
    Host.sockets (host (on_close t)) = Host.sockets (host t).
Proof.
  intros t. unfold on_close. cbn [setState ws isManualClose isReconnecting].
  destruct (negb (isManualClose t) && negb (isReconnecting t)); [|now split].
  match goal with
  | |- ws (scheduleReconnect ?u) = _ /\ _ =>
      destruct (scheduleReconnect_keeps_sockets u) as [E1 E2]; rewrite E1, E2
  end.
  now split.
Qed.

(** X21.  The close listener clears [Transport.ws] whichever socket
    closed.  So when a socket closes and another one then opens, the
    endpoint is in phase CONNECTED with [ws] equal to [null], and
    [sendElement] and [sendPing] send nothing. *)
Theorem close_of_one_socket_silences_another :
  forall (t : Transport) (w w' : WsId) (elementData : option string) (now : string),
    Host.exists_socket w (host t) = true ->
    Host.exists_socket w' (host t) = true ->
    let t' := host_step (host_step t (Closed w)) (Open w') in
    connectionState t' = CONNECTED /\
    ws t' = None /\
    Sending.sendElement elementData now t' = None /\
    Sending.sendPing t' = None.
Proof.
  intros t w w' elementData now Hw Hw' t'.
  assert (Hclosed : ws (host_step t (Closed w)) = None /\
                    Host.exists_socket w' (host (host_step t (Closed w))) = true).
  { cbn [host_step]. rewrite Hw.
    destruct (on_close_clears_ws (with_host (Host.set_readyState w Host.CLOSED (host t)) t))
      as [E1 E2].
    split; [exact E1|]. unfold Host.exists_socket in *. rewrite E2. simpl.
    now rewrite update_length. }
  destruct Hclosed as [Hnone Hex].
  assert (Hphase : connectionState t' = CONNECTED /\ ws t' = None).
  { unfold t'. revert Hnone Hex. generalize (host_step t (Closed w)). intros t1 Hnone Hex.
    cbn [host_step]. rewrite Hex. split; [reflexivity|]. exact Hnone. }
  destruct Hphase as [Hphase Hws].
  assert (Hs : Sending.sendable t' = None).
  { unfold Sending.sendable. rewrite Hphase, Hws. reflexivity. }
  split; [exact Hphase|]. split; [exact Hws|].
  unfold Sending.sendElement, Sending.sendPing. rewrite Hs. split; reflexivity.
Qed.

Lemma close_of_one_socket_silences_another_witness :
  let t := run [FromUser (Connect true); FromHost (Open 0);
                FromUser Disconnect; FromUser (Connect true)] initial in
  let t' := host_step (host_step t (Closed 0)) (Open 1) in
  Host.readyState 1 (host t') = Host.OPEN /\
  connectionState t' = CONNECTED /\
  Sending.sendElement (Some "{}"%string) "09:00" t' = None.
Proof.
  intros t t'. split; [reflexivity|].
  destruct (close_of_one_socket_silences_another t 0 1 (Some "{}"%string) "09:00"
              eq_refl eq_refl) as (H1 & _ & H2 & _).
  split; [exact H1 | exact H2].
Defined.

End SendingMore.

(** * Further properties of the listener endpoint *)

Section ListenerMore.
Import McpServer.

Lemma step_listener_bounded :
  forall m e, Observe.listener_bounded m -> Observe.listener_bounded (step m e).
Proof.
  intros m e [Hd Hall].
  unfold Observe.listener_bounded, Observe.listener_delay, scheduled in *.
  destruct e as [w|w|w|h|h now| |]; simpl.
  - destruct (Host.exists_socket w (host m)); [|now split].
    unfold on_open, startHeartbeat, stopHeartbeat, register, sendToWs. simpl.
    assert (Hi : (INITIAL_RECONNECT_DELAY <= INITIAL_RECONNECT_DELAY <= MAX_RECONNECT_DELAY)%Z).
    { unfold INITIAL_RECONNECT_DELAY, MAX_RECONNECT_DELAY. lia. }
    destruct (wsConnection m) as [w'|]; simpl.
    + destruct (Host.readyState w' _); simpl; now split.
    + now split.
  - destruct (Host.exists_socket w (host m)); [|now split].
    unfold on_close. simpl. destruct (isShuttingDown m) eqn:Hs; simpl; [now split|].
    unfold scheduleReconnect. simpl. rewrite Hs. simpl.
    split; [exact Hd|]. apply Forall_app. split; [exact Hall|].
    constructor; [exact Hd | constructor].
  - now split.
  - destruct (Host.armed h (host m)); [|now split].
    unfold reconnect_callback, connectToBridge. simpl.
    assert (Hn : (INITIAL_RECONNECT_DELAY
                  <= Z.min (reconnectDelay m * 2) MAX_RECONNECT_DELAY
                  <= MAX_RECONNECT_DELAY)%Z).
    { unfold INITIAL_RECONNECT_DELAY, MAX_RECONNECT_DELAY in *. lia. }
    destruct (isShuttingDown m); simpl; now split.
  - destruct (heartbeatTimer m) as [h'|]; [|now split].
    destruct (Nat.eqb h h'); [|now split].
    unfold sendToWs. destruct (wsConnection m) as [w'|]; [|now split].
    destruct (Host.readyState w' (host m)); simpl; now split.
  - unfold connectToBridge. destruct (isShuttingDown m); simpl; now split.
  - unfold shutdown. destruct (isShuttingDown m); [now split|].
    simpl. destruct (wsConnection m); simpl; [rewrite close_timeouts|]; now split.
Qed.

(** X22.  In every run of the listener endpoint the delay variable stays
    between the initial delay (1000 ms) and the maximum delay (30000 ms),
    and so does every reconnect delay ever scheduled. *)
Theorem listener_delays_stay_in_range :
  forall evs : list Event,
    let m := run evs initial in
    (INITIAL_RECONNECT_DELAY <= reconnectDelay m <= MAX_RECONNECT_DELAY)%Z /\
    Forall (fun d => INITIAL_RECONNECT_DELAY <= d <= MAX_RECONNECT_DELAY)%Z (scheduled m).
Proof.
  intros evs m.
  assert (H : Observe.listener_bounded m).
  { unfold m, run.
    assert (H0 : Observe.listener_bounded initial).
    { split; [|constructor].
      unfold Observe.listener_delay. simpl.
      unfold INITIAL_RECONNECT_DELAY, MAX_RECONNECT_DELAY. lia. }
    revert H0. generalize initial.
    induction evs as [|e evs IH]; intros m0 H0; simpl; [exact H0|].
    apply IH. now apply step_listener_bounded. }
  exact H.
Qed.

Lemma step_shut_down :
  forall m e,
    Observe.shut_down m -> Observe.shut_down (step m e) /\ sent (step m e) = sent m.
Proof.
  intros m e (Hs & Hws & Hex). unfold Observe.shut_down.
  destruct e as [w|w|w|h|h now| |]; simpl.
  - destruct (Host.exists_socket w (host m)); [|now repeat split].
    unfold on_open, startHeartbeat, stopHeartbeat, register, sendToWs. simpl.
    rewrite Hws. simpl. now repeat split.
  - destruct (Host.exists_socket w (host m)); [|now repeat split].
    unfold on_close. simpl. rewrite Hs. simpl. now repeat split.
  - now repeat split.
  - destruct (Host.armed h (host m)); [|now repeat split].
    unfold reconnect_callback, connectToBridge. simpl. rewrite Hs. simpl. now repeat split.
  - destruct (heartbeatTimer m) as [h'|]; [|now repeat split].
    destruct (Nat.eqb h h'); [|now repeat split].
    unfold sendToWs. rewrite Hws. now repeat split.
  - unfold connectToBridge. rewrite Hs. now repeat split.
  - unfold shutdown. rewrite Hs. now repeat split.
Qed.

(** X23.  Once [shutdown()] has run on a listener that was not shutting
    down, no later event makes it send a frame or hold a socket again: the
    frames sent are those sent before, [wsConnection] stays [null], and
    the exit status requested stays 0. *)
Theorem nothing_is_sent_after_shutdown :
  forall (m : Mcp) (post : list Event),
    isShuttingDown m = false ->
    let m' := run post (shutdown m) in
    sent m' = sent m /\ wsConnection m' = None /\ exited m' = Some 0%Z /\
    isShuttingDown m' = true.
Proof.
  intros m post Hlive m'.
  assert (H0 : Observe.shut_down (shutdown m) /\ sent (shutdown m) = sent m).
  { unfold shutdown, Observe.shut_down. rewrite Hlive. simpl.
    destruct (wsConnection m); simpl; now repeat split. }
  destruct H0 as [H0 Hsent0].
  assert (H : Observe.shut_down m' /\ sent m' = sent (shutdown m)).
  { unfold m', run. revert H0. generalize (shutdown m).
    induction post as [|e post IH]; intros m0 H0; simpl; [now split|].
    destruct (step_shut_down m0 e H0) as [H1 Hs1].
    destruct (IH _ H1) as [H2 Hs2]. split; [exact H2 | congruence]. }
  destruct H as [(Hs & Hws & Hex) Hsent].
  repeat split; congruence.
Qed.

Lemma nothing_is_sent_after_shutdown_witness :
  let m := run [ConnectToBridge; Open 0; Tick 0 5000%Z] initial in
  let m' := run [Tick 0 10000%Z; Closed 0; ConnectToBridge; TimerFired 0] (shutdown m) in
  sent m' = [(0, RegisterMsg); (0, HeartbeatMsg 5000%Z)].
Proof.
  intros m m'.
  exact (proj1 (nothing_is_sent_after_shutdown m
                  [Tick 0 10000%Z; Closed 0; ConnectToBridge; TimerFired 0] eq_refl)).
Defined.

End ListenerMore.

(** * Helpers of the collector *)

Section CollectorMore.
Import Collector.

Lemma length_take :
  forall n s, String.length (take n s) = Nat.min n (String.length s).
Proof.
  induction n as [|n IH]; intros [|c s]; simpl; try reflexivity. now rewrite IH.
Qed.

Lemma length_append :
  forall a b, String.length (String.append a b) = String.length a + String.length b.
Proof.
  induction a as [|c a IH]; intros b; simpl; [reflexivity|]. now rewrite IH.
Qed.

Lemma prefix_take :
  forall n s, String.prefix (take n s) s = true.
Proof.
  induction n as [|n IH]; intros [|c s]; simpl; try reflexivity.
  destruct (Ascii.ascii_dec c c); [apply IH | congruence].
Qed.

(** X24.  [_truncateString] never returns more than [maxLength]
    characters (none for a non-positive [maxLength] or a value that is
    not a string); a string that fits is returned as it is; a longer one,
    for [maxLength > 3], is cut to its first [maxLength - 3] characters
    followed by three dots. *)
Theorem truncateString_fits :
  forall (value : option string) (maxLength : Z),
    (Z.of_nat (String.length (_truncateString value maxLength)) <= Z.max 0 maxLength)%Z /\
    (forall v, value = Some v -> (0 < maxLength)%Z ->
       (Z.of_nat (String.length v) <= maxLength)%Z ->
       _truncateString value maxLength = v) /\
    (forall v, value = Some v -> (3 < maxLength)%Z ->
       (maxLength < Z.of_nat (String.length v))%Z ->
       exists head,
         _truncateString value maxLength = String.append head "..." /\
         String.prefix head v = true /\
         Z.of_nat (String.length head) = (maxLength - 3)%Z).
Proof.
  intros value maxLength. split; [|split].
  - destruct value as [v|]; simpl; [|lia].
    destruct (maxLength <=? 0)%Z eqn:E0; [simpl; lia|]. apply Z.leb_gt in E0.
    destruct (Z.of_nat (String.length v) <=? maxLength)%Z eqn:E1.
    + apply Z.leb_le in E1. lia.
    + apply Z.leb_gt in E1.
      destruct (maxLength <=? 3)%Z eqn:E3.
      * rewrite length_take. lia.
      * apply Z.leb_gt in E3. rewrite length_append, length_take. simpl. lia.
  - intros v -> Hpos Hfit. simpl.
    destruct (maxLength <=? 0)%Z eqn:E0; [apply Z.leb_le in E0; lia|].
    apply Z.leb_le in Hfit. now rewrite Hfit.
  - intros v -> Hbig Hlong. simpl.
    destruct (maxLength <=? 0)%Z eqn:E0; [apply Z.leb_le in E0; lia|].
    destruct (Z.of_nat (String.length v) <=? maxLength)%Z eqn:E1;
      [apply Z.leb_le in E1; lia|].
    destruct (maxLength <=? 3)%Z eqn:E3; [apply Z.leb_le in E3; lia|].
    exists (take (Z.to_nat (maxLength - 3)) v).
    split; [reflexivity|]. split; [apply prefix_take|].
    rewrite length_take. lia.
Qed.

Lemma truncateString_fits_witness :
  _truncateString (Some "html > body > div.main"%string) 10
  = String.append "html > " "...".
Proof.
  destruct (truncateString_fits (Some "html > body > div.main"%string) 10) as (_ & _ & H).
  destruct (H "html > body > div.main"%string eq_refl) as (head & E & _ & _);
    [lia | simpl; lia |].
  reflexivity.
Defined.

Lemma length_slice_from :
  forall n s, String.length (Startup.slice_from n s) <= String.length s.
Proof.
  induction n as [|n IH]; intros [|c s]; simpl; try lia.
  specialize (IH s). lia.
Qed.

Lemma length_lower_string :
  forall s, String.length (lower_string s) = String.length s.
Proof. induction s as [|c s IH]; simpl; [reflexivity | now rewrite IH]. Qed.

(** X25.  A class name of one to five characters is never taken for a
    generated one, and a name of six or more characters that are all
    hexadecimal digits always is, whether or not it is a word. *)
Theorem short_names_are_stable_hex_names_dynamic :
  forall className : string,
    (1 <= String.length className <= 5 -> _isDynamicClass className = false) /\
    (6 <= String.length className -> all_chars is_hex className = true ->
       _isDynamicClass className = true) /\
    _isDynamicClass EmptyString = true.
Proof.
  intros className. split; [|split].
  - intros [Hlo Hhi]. unfold _isDynamicClass.
    assert (Ht : str_truthy className = true).
    { destruct className; [simpl in Hlo; lia | reflexivity]. }
    rewrite Ht. simpl negb. cbv iota.
    assert (Hhex : hex_hash className = false).
    { unfold hex_hash. replace (Nat.leb 6 (String.length className)) with false; [reflexivity|].
      symmetry. apply Nat.leb_gt. lia. }
    rewrite Hhex.
    assert (Htail : forall n,
               Nat.leb 6 (String.length (Startup.slice_from n className)) = false).
    { intros n. apply Nat.leb_gt. pose proof (length_slice_from n className). lia. }
    assert (Hgen : generated_name className = false).
    { unfold generated_name. rewrite !Htail. simpl. now rewrite !andb_false_r. }
    rewrite Hgen.
    replace (Nat.leb 20 (String.length className)) with false; [reflexivity|].
    symmetry. apply Nat.leb_gt. lia.
  - intros Hlen Hhex. unfold _isDynamicClass.
    destruct (negb (str_truthy className)); [reflexivity|].
    unfold hex_hash. rewrite Hhex.
    replace (Nat.leb 6 (String.length className)) with true; [reflexivity|].
    symmetry. apply Nat.leb_le. exact Hlen.
  - reflexivity.
Qed.

Lemma short_names_are_stable_hex_names_dynamic_witness :
  _isDynamicClass "btn" = false /\ _isDynamicClass "facade" = true.
Proof.
  split.
  - apply (proj1 (short_names_are_stable_hex_names_dynamic "btn")). simpl. lia.
  - apply (proj1 (proj2 (short_names_are_stable_hex_names_dynamic "facade")));
      [simpl; lia | reflexivity].
Defined.

Lemma nth_index_count :
  forall tag l,
    _getNthOfTypeIndex tag l
    = S (List.length (filter (fun sibling => String.eqb sibling tag) l)).
Proof.
  intros tag l. induction l as [|x l IH]; simpl; [reflexivity|].
  destruct (String.eqb x tag); simpl; now rewrite IH.
Qed.

Lemma count_rev :
  forall (f : string -> bool) l,
    List.length (filter f (rev l)) = List.length (filter f l).
Proof.
  intros f l. induction l as [|x l IH]; simpl; [reflexivity|].
  rewrite filter_app, length_app, IH. simpl. destruct (f x); simpl; lia.
Qed.

Lemma count_zero_iff :
  forall tag l,
    List.length (filter (fun sibling => String.eqb sibling tag) l) = 0 <-> ~ In tag l.
Proof.
  intros tag l. induction l as [|x l IH]; simpl; [tauto|].
  destruct (String.eqb x tag) eqn:E; simpl.
  - apply String.eqb_eq in E. subst x. split; [discriminate | tauto].
  - apply String.eqb_neq in E. rewrite IH. split; [|tauto].
    intros H [H0|H0]; [congruence | tauto].
Qed.

(** X26.  Among the children of one parent, the nth-of-type index is 1
    plus the number of earlier siblings with the same tag: it is at least
    1 and at most 1 plus the number of earlier siblings; of two siblings
    with the same tag the later one gets the strictly larger index, the
    next one when no sibling between them has that tag. *)
Theorem nth_of_type_tells_siblings_apart :
  forall (tag : string) (first between : list string),
    let earlier := _getNthOfTypeIndex tag (rev first) in
    let later := _getNthOfTypeIndex tag (rev (first ++ tag :: between)) in
    1 <= earlier <= S (List.length first) /\
    earlier < later /\
    (~ In tag between -> later = S earlier).
Proof.
  intros tag first between earlier later. unfold earlier, later.
  rewrite !nth_index_count, !count_rev, filter_app, length_app.
  cbn [filter]. rewrite String.eqb_refl. cbn [List.length].
  pose proof (length_filter_le _ (fun sibling => String.eqb sibling tag) first) as Hle.
  split; [lia|]. split; [lia|].
  intros Hnone. apply count_zero_iff in Hnone. rewrite Hnone. lia.
Qed.

Lemma nth_of_type_tells_siblings_apart_witness :
  _getNthOfTypeIndex "li" (rev (["li"; "p"] ++ "li" :: ["p"; "span"]))%string
  = S (_getNthOfTypeIndex "li" (rev ["li"; "p"]%string)).
Proof.
  apply (proj2 (proj2 (nth_of_type_tells_siblings_apart "li" ["li"; "p"] ["p"; "span"]))%string).
  intros [H|[H|[]]]; discriminate H.
Defined.

(** X27.  A step of [generateXPath] leaves the tag without an index
    exactly when no other child of the parent has the same tag; otherwise
    the index in brackets is 1 plus the number of earlier siblings with
    that tag. *)
Theorem xpath_index_only_when_needed :
  forall (tag : string) (before after : list string),
    (snd (xpath_segment tag (rev before) after) = None <->
     ~ In tag before /\ ~ In tag after) /\
    (forall i, snd (xpath_segment tag (rev before) after) = Some i ->
       i = S (List.length (filter (fun sibling => String.eqb sibling tag) before))) /\
    fst (xpath_segment tag (rev before) after) = tag.
Proof.
  intros tag before after. unfold xpath_segment.
  rewrite nth_index_count, count_rev.
  assert (Hafter : existsb (fun sibling => String.eqb sibling tag) after = false
                   <-> ~ In tag after).
  { split.
    - intros H Hin. assert (T : existsb (fun sibling => String.eqb sibling tag) after = true).
      { apply existsb_exists. exists tag. split; [exact Hin | apply String.eqb_refl]. }
      congruence.
    - intros H. destruct (existsb _ after) eqn:E; [|reflexivity].
      apply existsb_exists in E. destruct E as (x & Hx & Ex).
      apply String.eqb_eq in Ex. subst x. contradiction. }
  pose proof (count_zero_iff tag before) as Hbefore.
  destruct (List.length (filter (fun sibling => String.eqb sibling tag) before)) as [|n] eqn:Hn.
  - simpl. destruct (existsb (fun sibling => String.eqb sibling tag) after) eqn:E; simpl.
    + split; [|split; [|reflexivity]].
      * split; [discriminate|]. intros [_ H]. apply Hafter in H. discriminate.
      * intros i H. now inversion H.
    + split; [|split; [|reflexivity]].
      * split; [|reflexivity]. intros _. split; [now apply Hbefore | now apply Hafter].
      * intros i H. discriminate H.
  - simpl. split; [|split; [|reflexivity]].
    + split; [discriminate|]. intros [H _]. apply Hbefore in H. discriminate.
    + intros i H. now inversion H.
Qed.

Lemma xpath_index_only_when_needed_witness :
  snd (xpath_segment "li" (rev ["li"; "p"; "li"]%string) ["p"%string]) = Some 3 /\
  3 = S (List.length (filter (fun sibling => String.eqb sibling "li")
                        ["li"; "p"; "li"]%string)).
Proof.
  split; [reflexivity|].
  exact (proj1 (proj2 (xpath_index_only_when_needed "li" ["li"; "p"; "li"]%string
                         ["p"%string])) 3 eq_refl).
Defined.

End CollectorMore.

(** * Registration to delivery *)

Section EndToEnd.
Import Bridge.

(** X28.  A listener registers with a relay whose registry is empty and
    its socket is open.  For the next producer event, if
    [formatElementForPaste] returns, the event is sent to that socket,
    with its data unchanged and nowhere else, whatever the clock and the
    focus probe say; if [formatElementForPaste] throws, the handler throws
    and nothing is sent.  A ping is not forwarded. *)
Theorem sole_listener_receives_the_event :
  forall (fmt : string -> option string) (st : Relay) (w : WsId)
         (p : RegisterPayload) (now : Z) (world : World) (data : string),
    subscribers st = [] ->
    readyState world w = 1%Z ->
    (forall message, fmt data = Some message ->
       exists outs,
         on_browser_message fmt (on_register w p now st) world (BEvent data) = Some outs /\
         Observe.sent_frames outs = [(w, data)]) /\
    (fmt data = None ->
       on_browser_message fmt (on_register w p now st) world (BEvent data) = None) /\
    on_browser_message fmt (on_register w p now st) world BPing = Some [].
Proof.
  intros fmt st w p now world data Hempty Hready.
  split; [|split; [|reflexivity]].
  - intros message Hfmt.
    destruct (on_browser_message fmt (on_register w p now st) world (BEvent data))
      as [outs|] eqn:Hout.
    + exists outs. split; [reflexivity|].
      destruct (dispatch_sent fmt (on_register w p now st) world (BEvent data) outs Hout)
        as (_ & _ & Hsent).
      apply (Hsent data (record_of w p now)); [reflexivity | | exact Hready].
      rewrite on_register_subscribers, Hempty. reflexivity.
    + simpl in Hout. rewrite Hfmt in Hout. discriminate Hout.
  - intros Hfmt. simpl. rewrite Hfmt. reflexivity.
Qed.

Lemma sole_listener_receives_the_event_witness :
  let c1 := mkRegister (IdStr "c1") (Some "/work/app"%string) (Some "app"%string) None None in
  let world := mkWorld (Some "mail"%string) 99999%Z (fun _ => 1%Z) in
  let fmt := fun data : string => Some (String.append "[Web Inspector] " data) in
  exists outs,
    on_browser_message fmt (on_register 3 c1 0 initial) world (BEvent "{}") = Some outs /\
    Observe.sent_frames outs = [(3, "{}"%string)].
Proof.
  intros c1 world fmt.
  exact (proj1 (sole_listener_receives_the_event fmt initial 3 c1 0%Z world "{}"
                  eq_refl eq_refl) "[Web Inspector] {}"%string eq_refl).
Defined.

End EndToEnd.
